(** * The Video Journal front end: synchronisation logic of [App]

    A model of the React component [App] (the variant with the
    [isProcessingVideo] state): its state hooks, the three effects
    ([initializeConversation], [fetchData], [handleKeyDown]) and
    [queryAgent], followed by the properties of the poller, the toggle and
    the initializer.  The handlers of the other variant, [App.jsx], that
    differ are in the module [AppJsx].

    Each asynchronous handler is a finite tree of effects ([Prog]): state
    updates, awaited network calls, timers.  A handler is built from the
    values of the render it was registered in (its closure), while the
    functional updates [setStatus(prev => ...)] act on the state current when
    they are applied, as in React. *)

From Stdlib Require Import List String Bool Arith Lia.
From Stdlib Require DecimalString.
Import ListNotations.
Open Scope string_scope.
Open Scope list_scope.
Open Scope bool_scope.

(** ** Data model *)

Record Status : Type := {
  is_recording : bool;
  processed_video_count : nat
}.

Record Message : Type := {
  role : string;
  content : string
}.

Record Video : Type := {
  timestamp : string;
  summary : string;
  video_status : option string
}.

Record MemoryContext : Type := {
  profile : option string;
  current_focus : option string;
  skills : option (list string)
}.

Record ConversationSnapshot : Type := {
  history : list Message;
  videos : list Video;
  memory_context : MemoryContext
}.

(** The seven [useState] cells of [App]. *)
Record SyncState : Type := {
  conversationState : ConversationSnapshot;
  status : Status;
  lastAgentResponse : string;
  loading : bool;
  isProcessingF9 : bool;
  initialized : bool;
  isProcessingVideo : bool
}.

Definition emptyMemory : MemoryContext :=
  {| profile := None; current_focus := None; skills := None |}.

(** The arguments of the [useState] calls. *)
Definition initialState : SyncState :=
  {| conversationState :=
       {| history := []; videos := []; memory_context := emptyMemory |};
     status := {| is_recording := false; processed_video_count := 0 |};
     lastAgentResponse := "";
     loading := false;
     isProcessingF9 := false;
     initialized := false;
     isProcessingVideo := false |}.

(** ** State setters *)

Definition setConversationState (c : ConversationSnapshot) (s : SyncState) : SyncState :=
  {| conversationState := c;
     status := status s;
     lastAgentResponse := lastAgentResponse s;
     loading := loading s;
     isProcessingF9 := isProcessingF9 s;
     initialized := initialized s;
     isProcessingVideo := isProcessingVideo s |}.

(** [setStatus(prev => g(prev))]; [setStatus(v)] is the constant case. *)
Definition setStatusWith (g : Status -> Status) (s : SyncState) : SyncState :=
  {| conversationState := conversationState s;
     status := g (status s);
     lastAgentResponse := lastAgentResponse s;
     loading := loading s;
     isProcessingF9 := isProcessingF9 s;
     initialized := initialized s;
     isProcessingVideo := isProcessingVideo s |}.

Definition setStatus (v : Status) : SyncState -> SyncState :=
  setStatusWith (fun _ => v).

Definition setLastAgentResponse (v : string) (s : SyncState) : SyncState :=
  {| conversationState := conversationState s;
     status := status s;
     lastAgentResponse := v;
     loading := loading s;
     isProcessingF9 := isProcessingF9 s;
     initialized := initialized s;
     isProcessingVideo := isProcessingVideo s |}.

Definition setLoading (v : bool) (s : SyncState) : SyncState :=
  {| conversationState := conversationState s;
     status := status s;
     lastAgentResponse := lastAgentResponse s;
     loading := v;
     isProcessingF9 := isProcessingF9 s;
     initialized := initialized s;
     isProcessingVideo := isProcessingVideo s |}.

Definition setIsProcessingF9 (v : bool) (s : SyncState) : SyncState :=
  {| conversationState := conversationState s;
     status := status s;
     lastAgentResponse := lastAgentResponse s;
     loading := loading s;
     isProcessingF9 := v;
     initialized := initialized s;
     isProcessingVideo := isProcessingVideo s |}.

Definition setInitialized (v : bool) (s : SyncState) : SyncState :=
  {| conversationState := conversationState s;
     status := status s;
     lastAgentResponse := lastAgentResponse s;
     loading := loading s;
     isProcessingF9 := isProcessingF9 s;
     initialized := v;
     isProcessingVideo := isProcessingVideo s |}.

Definition setIsProcessingVideo (v : bool) (s : SyncState) : SyncState :=
  {| conversationState := conversationState s;
     status := status s;
     lastAgentResponse := lastAgentResponse s;
     loading := loading s;
     isProcessingF9 := isProcessingF9 s;
     initialized := initialized s;
     isProcessingVideo := v |}.

(** ** The backend *)

(** The four endpoints reached through [fetch]. *)
Inductive Call : Type :=
| GetStatus
| GetConversation
| PostToggleRecording
| PostAgentQuery (query : string).

(** What a round trip yields: the decoded JSON body, or a rejected promise
    ([RFail]: transport or decoding error). *)
Inductive Response : Type :=
| RStatus (s : Status)
| RConversation (c : ConversationSnapshot)
| RToggle (message : string)
| RAgent (response : string)
| RFail.

(** ** Handlers as effect trees *)

Inductive Prog (A : Type) : Type :=
| Ret (a : A)
| Throw
| Update (f : SyncState -> SyncState) (k : Prog A)
| Await (c : Call) (k : Response -> Prog A)
| SetTimeout (f : SyncState -> SyncState) (ms : nat) (k : Prog A)
| PreventDefault (k : Prog A).

Arguments Ret {A} a.
Arguments Throw {A}.
Arguments Update {A} f k.
Arguments Await {A} c k.
Arguments SetTimeout {A} f ms k.
Arguments PreventDefault {A} k.

Fixpoint bind {A B : Type} (p : Prog A) (q : A -> Prog B) : Prog B :=
  match p with
  | Ret a => q a
  | Throw => Throw
  | Update f k => Update f (bind k q)
  | Await c k => Await c (fun r => bind (k r) q)
  | SetTimeout f ms k => SetTimeout f ms (bind k q)
  | PreventDefault k => PreventDefault (bind k q)
  end.

Notation "x <- p ;; q" := (bind p (fun x => q))
  (at level 61, p at next level, right associativity).
Notation "p ;; q" := (bind p (fun _ => q))
  (at level 61, right associativity).

(** [try { p } catch (error) { h }] *)
Fixpoint try_catch {A : Type} (p h : Prog A) : Prog A :=
  match p with
  | Ret a => Ret a
  | Throw => h
  | Update f k => Update f (try_catch k h)
  | Await c k => Await c (fun r => try_catch (k r) h)
  | SetTimeout f ms k => SetTimeout f ms (try_catch k h)
  | PreventDefault k => PreventDefault (try_catch k h)
  end.

(** [try { p } finally { f }]: [f] runs on both exits of [p], and the exit
    of [p] (value or exception) is the exit of the whole. *)
Fixpoint try_finally {A : Type} (p : Prog A) (f : Prog unit) : Prog A :=
  match p with
  | Ret a => f ;; Ret a
  | Throw => f ;; Throw
  | Update g k => Update g (try_finally k f)
  | Await c k => Await c (fun r => try_finally (k r) f)
  | SetTimeout g ms k => SetTimeout g ms (try_finally k f)
  | PreventDefault k => PreventDefault (try_finally k f)
  end.

Definition set (f : SyncState -> SyncState) : Prog unit := Update f (Ret tt).
Definition setTimeout (f : SyncState -> SyncState) (ms : nat) : Prog unit :=
  SetTimeout f ms (Ret tt).
Definition preventDefault : Prog unit := PreventDefault (Ret tt).
Definition skip : Prog unit := Ret tt.

(** [await fetch(url, ...)] followed by [await response.json()], per
    endpoint.  The body is typed: a reply that is not of the endpoint's type
    counts as a decoding failure. *)
Definition fetchStatus : Prog Status :=
  Await GetStatus (fun r => match r with RStatus s => Ret s | _ => Throw end).

Definition fetchConversation : Prog ConversationSnapshot :=
  Await GetConversation
    (fun r => match r with RConversation c => Ret c | _ => Throw end).

Definition fetchToggle : Prog string :=
  Await PostToggleRecording
    (fun r => match r with RToggle m => Ret m | _ => Throw end).

Definition fetchAgent (query : string) : Prog string :=
  Await (PostAgentQuery query)
    (fun r => match r with RAgent a => Ret a | _ => Throw end).

(** ** The handlers of [App] *)

Definition isAssistant (msg : Message) : bool := (role msg =? "assistant")%string.

(** [Array.prototype.pop] on a fresh array: its last element, if any. *)
Fixpoint pop {A : Type} (l : list A) : option A :=
  match l with
  | [] => None
  | [x] => Some x
  | _ :: l' => pop l'
  end.

(** [history.filter(msg => msg.role === 'assistant').pop()] *)
Definition lastAssistant (h : list Message) : option Message :=
  pop (filter isAssistant h).

Definition msgRecordingStarted : string :=
  "Recording started. Press F9 again when you're done to stop and analyze the recording.".
Definition msgRecordingStopped : string :=
  "Recording stopped. Processing your video, please wait...".
Definition msgToggleError : string :=
  "Error toggling recording. Please try again.".
Definition msgAgentError : string :=
  "Sorry, I encountered an error communicating with the agent.".
Definition querySummarize : string :=
  "Please summarize what videos I have available and what I can do with them.".
Definition queryWelcome : string :=
  "What can I do with this system?".

(** [queryAgent]: the result is [data.response], or [null] after an error. *)
Definition queryAgent (query : string) : Prog (option string) :=
  set (setLoading true) ;;
  try_finally
    (try_catch
       (response <- fetchAgent query ;;
        set (setLastAgentResponse response) ;;
        Ret (Some response))
       (set (setLastAgentResponse msgAgentError) ;;
        Ret None))
    (set (setLoading false)).

(** [initializeConversation], registered by the effect on [[initialized]];
    [r] holds the values of the render that registered it. *)
Definition initializeConversation (r : SyncState) : Prog unit :=
  if initialized r then skip
  else
    try_finally
      (try_catch
         (set (setLoading true) ;;
          statusData <- fetchStatus ;;
          (if (0 <? processed_video_count statusData)%nat then
             conversationData <- fetchConversation ;;
             let hasAssistantMessages :=
               existsb isAssistant (history conversationData) in
             if negb hasAssistantMessages then
               queryAgent querySummarize ;; skip
             else
               match lastAssistant (history conversationData) with
               | Some lastMessage =>
                   set (setLastAgentResponse (content lastMessage))
               | None => skip
               end
           else
             queryAgent queryWelcome ;; skip) ;;
          set (setInitialized true))
         skip)
      (set (setLoading false)).

(** The block shared by both conversation fetches of [fetchData]:
    [if (history && history.length > 0) { lastMessage = ...; if (lastMessage) ... }] *)
Definition publishLastAssistant (conversationData : ConversationSnapshot) : Prog unit :=
  match history conversationData with
  | [] => skip
  | _ :: _ =>
      match lastAssistant (history conversationData) with
      | Some lastMessage => set (setLastAgentResponse (content lastMessage))
      | None => skip
      end
  end.

(** [fetchData], the poll tick; [r] holds the closure's [status] and
    [isProcessingVideo]. *)
Definition fetchData (r : SyncState) : Prog unit :=
  try_catch
    (statusData <- fetchStatus ;;
     (if negb (is_recording (status r)) && negb (isProcessingVideo r) then
        set (setStatus statusData)
      else
        set (setStatusWith (fun prevStatus =>
               {| is_recording := is_recording statusData;
                  processed_video_count := processed_video_count prevStatus |}))) ;;
     (if negb (is_recording (status r)) && negb (isProcessingVideo r) then
        conversationData <- fetchConversation ;;
        set (setConversationState conversationData) ;;
        publishLastAssistant conversationData
      else skip) ;;
     (if is_recording (status r) && negb (is_recording statusData) then
        set (setIsProcessingVideo true) ;;
        set (setLastAgentResponse msgRecordingStopped)
      else skip) ;;
     (if isProcessingVideo r && negb (is_recording statusData)
           && (processed_video_count (status r) <? processed_video_count statusData)%nat
      then
        set (setStatus statusData) ;;
        set (setIsProcessingVideo false) ;;
        conversationData <- fetchConversation ;;
        set (setConversationState conversationData) ;;
        publishLastAssistant conversationData
      else skip))
    skip.

(** [handleKeyDown], the [keydown] listener; [r] holds the closure's
    [isProcessingF9], [isProcessingVideo] and [status]. *)
Definition handleKeyDown (r : SyncState) (key : string) : Prog unit :=
  if (key =? "F9")%string then
    if isProcessingF9 r || isProcessingVideo r then skip
    else
      preventDefault ;;
      set (setIsProcessingF9 true) ;;
      try_finally
        (try_catch
           ((if negb (is_recording (status r)) then
               set (setLastAgentResponse msgRecordingStarted)
             else skip) ;;
            fetchToggle ;;
            set (setStatusWith (fun prevStatus =>
                   {| is_recording := negb (is_recording prevStatus);
                      processed_video_count := processed_video_count prevStatus |})))
           (set (setLastAgentResponse msgToggleError)))
        (setTimeout (setIsProcessingF9 false) 1000)
  else skip.

(** ** Running handlers *)

Inductive Effect : Type :=
| Sent (c : Call)
| DefaultPrevented.

(** The page: the state cells, a clock in milliseconds, the pending timers
    (due time and callback) and the effects observed so far. *)
Record World : Type := {
  state : SyncState;
  clock : nat;
  timers : list (nat * (SyncState -> SyncState));
  log : list Effect
}.

Definition initialWorld : World :=
  {| state := initialState; clock := 0; timers := []; log := [] |}.

Definition withState (f : SyncState -> SyncState) (w : World) : World :=
  {| state := f (state w); clock := clock w; timers := timers w; log := log w |}.

Definition logged (e : Effect) (w : World) : World :=
  {| state := state w; clock := clock w; timers := timers w; log := log w ++ [e] |}.

Definition scheduled (f : SyncState -> SyncState) (ms : nat) (w : World) : World :=
  {| state := state w; clock := clock w;
     timers := timers w ++ [((clock w + ms)%nat, f)]; log := log w |}.

(** [run p net w] runs [p] to its end.  [net] lists the backend's replies to
    the calls of [p], in the order the calls are made; a call beyond the end
    of [net] fails.  The result is [None] when an exception escapes [p]. *)
Fixpoint run {A : Type} (p : Prog A) (net : list Response) (w : World)
  : option A * World :=
  match p with
  | Ret a => (Some a, w)
  | Throw => (None, w)
  | Update f k => run k net (withState f w)
  | Await c k =>
      match net with
      | r :: net' => run (k r) net' (logged (Sent c) w)
      | [] => run (k RFail) [] (logged (Sent c) w)
      end
  | SetTimeout f ms k => run k net (scheduled f ms w)
  | PreventDefault k => run k net (logged DefaultPrevented w)
  end.

(** [suspended p s]: the state once [p], started in state [s], has run up
    to its first [await], and the call it then waits for. *)
Fixpoint suspended {A : Type} (p : Prog A) (s : SyncState)
  : SyncState * option Call :=
  match p with
  | Ret _ | Throw => (s, None)
  | Update f k => suspended k (f s)
  | Await c _ => (s, Some c)
  | SetTimeout _ _ k | PreventDefault k => suspended k s
  end.

(** Time passes: the timers that are due run, in the order they were set. *)
Definition elapse (dt : nat) (w : World) : World :=
  let now := (clock w + dt)%nat in
  {| state :=
       fold_left (fun s t => if (fst t <=? now)%nat then snd t s else s)
                 (timers w) (state w);
     clock := now;
     timers := filter (fun t => negb (fst t <=? now)%nat) (timers w);
     log := log w |}.

(** What happens to the page.  Every handler is started with the closure
    of the current render and run to its end on the replies it receives. *)
Inductive Event : Type :=
| Initialize (net : list Response)
| Poll (net : list Response)
| KeyDown (key : string) (net : list Response)
| AgentQuery (query : string) (net : list Response)
| Elapse (dt : nat).

Definition step (w : World) (e : Event) : World :=
  match e with
  | Initialize net => snd (run (initializeConversation (state w)) net w)
  | Poll net => snd (run (fetchData (state w)) net w)
  | KeyDown key net => snd (run (handleKeyDown (state w) key) net w)
  | AgentQuery query net => snd (run (queryAgent query) net w)
  | Elapse dt => elapse dt w
  end.

Definition steps (w : World) (es : list Event) : World := fold_left step es w.

Definition reachable (w : World) : Prop := exists es, w = steps initialWorld es.

(** Counting the toggle calls in a log. *)
Definition isToggleCall (e : Effect) : bool :=
  match e with Sent PostToggleRecording => true | _ => false end.

Definition countIn (f : Effect -> bool) (l : list Effect) : nat :=
  List.length (filter f l).

Arguments countIn : simpl never.

(** ** Rendering *)

(** A number in a template literal or in JSX text. *)
Definition numberToString (n : nat) : string :=
  DecimalString.NilZero.string_of_uint (Nat.to_uint n).

(** [value || fallback] on a string: the empty string is falsy. *)
Definition orElse (value fallback : string) : string :=
  match value with
  | EmptyString => fallback
  | String _ _ => value
  end.

(** The same on a field that may be absent. *)
Definition fieldOrElse (value : option string) (fallback : string) : string :=
  match value with
  | Some v => orElse v fallback
  | None => fallback
  end.

(** What the memory summary shows: the two paragraphs always present and
    the skills paragraph when there is one. *)
Record MemorySummary : Type := {
  shownProfile : string;
  shownFocus : string;
  shownSkills : option string
}.

(** [Object.keys(memory).length === 0]; a field of [MemoryContext] is
    [None] when the object has no such key. *)
Definition hasNoKeys (memory : MemoryContext) : bool :=
  match profile memory, current_focus memory, skills memory with
  | None, None, None => true
  | _, _, _ => false
  end.

(** [renderMemorySummary], [None] for [null]. *)
Definition renderMemorySummary (r : SyncState) : option MemorySummary :=
  let memory := memory_context (conversationState r) in
  if hasNoKeys memory then None
  else
    Some {| shownProfile := fieldOrElse (profile memory) "Building profile...";
            shownFocus := fieldOrElse (current_focus memory) "No current focus";
            shownSkills :=
              match skills memory with
              | Some (skill :: others) =>
                  Some (String.concat ", " (skill :: others))
              | _ => None
              end |}.

(** [!(video && video.status && video.status === "skipped")] *)
Definition isDisplayed (video : Video) : bool :=
  negb match video_status video with
       | Some st => (st =? "skipped")%string
       | None => false
       end.

(** [list.map((x, index) => f(x, index))], counting from [index]. *)
Fixpoint mapWithIndex {A B : Type} (f : A -> nat -> B) (index : nat) (l : list A)
  : list B :=
  match l with
  | [] => []
  | x :: l' => f x index :: mapWithIndex f (S index) l'
  end.

(** A video card: its React key, its heading and summary, and the query
    its [onClick] passes to [queryAgent]. *)
Record VideoCard : Type := {
  cardKey : nat;
  cardHeading : string;
  cardSummary : string;
  cardQuery : string
}.

(** What [App] returns, as far as it depends on the state. *)
Record View : Type := {
  statusIndicator : string;
  responseBox : string;
  memorySummary : option MemorySummary;
  videosHeading : string;
  videoCards : list VideoCard;
  noVideosNotice : bool
}.

Section Rendering.

(** [new Date(timestamp).toLocaleString()], which depends on the browser's
    locale. *)
Variable toLocaleString : string -> string.

Definition videoCard (video : Video) (index : nat) : VideoCard :=
  {| cardKey := index;
     cardHeading :=
       ("Video " ++ numberToString (index + 1) ++ ": "
          ++ toLocaleString (timestamp video))%string;
     cardSummary := summary video;
     cardQuery := ("Tell me about video " ++ numberToString index)%string |}.

(** The [return] of [App]; [r] holds the values of the render. *)
Definition render (r : SyncState) : View :=
  {| statusIndicator :=
       if is_recording (status r) then "Recording... (Press F9 to stop)"
       else "Press F9 to Record";
     responseBox :=
       if loading r then "Processing..."
       else if isProcessingVideo r then
         "Recording stopped. Processing your video, please wait..."
       else orElse (lastAgentResponse r) "No response yet. Record a video to start.";
     memorySummary := renderMemorySummary r;
     videosHeading :=
       ("Videos (" ++ numberToString (processed_video_count (status r)) ++ ")")%string;
     videoCards :=
       mapWithIndex videoCard 0 (filter isDisplayed (videos (conversationState r)));
     noVideosNotice :=
       match videos (conversationState r) with
       | [] => true
       | _ :: _ => false
       end |}.

End Rendering.

(** A click on a video card: [queryAgent] on the card's query. *)
Definition click (card : VideoCard) (net : list Response) : Event :=
  AgentQuery (cardQuery card) net.

(** ** Vocabulary of the properties *)

(** [respects J p]: every effect of [p] keeps the property [J] of the page. *)
Fixpoint respects (J : World -> Prop) {A : Type} (p : Prog A) : Prop :=
  match p with
  | Ret _ | Throw => True
  | Update f k =>
      (forall w, J w -> J (withState f w)) /\ respects J k
  | Await c k =>
      (forall w, J w -> J (logged (Sent c) w)) /\ forall r, respects J (k r)
  | SetTimeout f ms k =>
      (forall w, J w -> J (scheduled f ms w)) /\ respects J k
  | PreventDefault k =>
      (forall w, J w -> J (logged DefaultPrevented w)) /\ respects J k
  end.

(** What the handlers other than the toggle leave alone: the processing
    flag, the stored status, the toggle guard, the timers, the clock and the
    number of toggle calls. *)
Definition untouched (w0 w : World) : Prop :=
  isProcessingVideo (state w) = isProcessingVideo (state w0) /\
  status (state w) = status (state w0) /\
  isProcessingF9 (state w) = isProcessingF9 (state w0) /\
  timers w = timers w0 /\
  clock w = clock w0 /\
  countIn isToggleCall (log w) = countIn isToggleCall (log w0).

(** The same without the stored status and the processing flag, which a
    poll tick may change. *)
Definition toggleUntouched (w0 w : World) : Prop :=
  isProcessingF9 (state w) = isProcessingF9 (state w0) /\
  timers w = timers w0 /\
  clock w = clock w0 /\
  countIn isToggleCall (log w) = countIn isToggleCall (log w0).

(** The state is stable: not recording and not processing. *)
Definition stable (s : SyncState) : Prop :=
  is_recording (status s) = false /\ isProcessingVideo s = false.

(** What the tick publishes from a fetched snapshot. *)
Definition publishFrom (cd : ConversationSnapshot) (s : SyncState) : SyncState :=
  match lastAssistant (history cd) with
  | Some m => setLastAgentResponse (content m) s
  | None => s
  end.

(** [setStatus(prevStatus => ({...prevStatus, is_recording: statusData.is_recording}))] *)
Definition recordingOnly (sd : Status) (s : SyncState) : SyncState :=
  setStatusWith (fun prevStatus =>
                   {| is_recording := is_recording sd;
                      processed_video_count := processed_video_count prevStatus |}) s.

(** [setStatus(prevStatus => ({...prevStatus, is_recording: !prevStatus.is_recording}))] *)
Definition flipRecording (s : SyncState) : SyncState :=
  setStatusWith (fun prevStatus =>
                   {| is_recording := negb (is_recording prevStatus);
                      processed_video_count := processed_video_count prevStatus |}) s.

(** The fetches of the initializer that can throw succeed on [net]: the
    status fetch and, when the count is positive, the conversation fetch. *)
Definition initFetchesSucceed (net : list Response) : bool :=
  match net with
  | RStatus sd :: rest =>
      if (0 <? processed_video_count sd)%nat then
        match rest with
        | RConversation _ :: _ => true
        | _ => false
        end
      else true
  | _ => false
  end.

(** At most one timer is pending, the one that clears [isProcessingF9],
    and it is pending exactly while [isProcessingF9] is true. *)
Definition timersOk (w : World) : Prop :=
  (isProcessingF9 (state w) = false /\ timers w = []) \/
  (isProcessingF9 (state w) = true /\
   exists due, timers w = [(due, setIsProcessingF9 false)] /\ (clock w < due)%nat).

(** Time that passes during a sequence of events. *)
Definition elapsedOf (e : Event) : nat :=
  match e with
  | Elapse dt => dt
  | _ => 0
  end.

Definition elapsed (es : list Event) : nat := list_sum (map elapsedOf es).

(** The page during the cooldown of a toggle call that completed at time
    [t0]: [k] milliseconds later the guard is still set, the timer still
    pending and the number of toggle calls still [n]. *)
Definition cooling (t0 n k : nat) (w : World) : Prop :=
  isProcessingF9 (state w) = true /\
  timers w = [((t0 + 1000)%nat, setIsProcessingF9 false)] /\
  clock w = (t0 + k)%nat /\
  countIn isToggleCall (log w) = n.

(** [e] is a poll tick on which the completion edge fires in [w]: it
    fetches a status that is not recording and whose count is above the
    stored one. *)
Definition completes (w : World) (e : Event) : Prop :=
  exists sd rest,
    e = Poll (RStatus sd :: rest) /\
    is_recording sd = false /\
    (processed_video_count (status (state w)) < processed_video_count sd)%nat.

(** [e] is a poll tick that reports a count above [N]. *)
Definition reportsAbove (N : nat) (e : Event) : bool :=
  match e with
  | Poll (RStatus sd :: _) => (N <? processed_video_count sd)%nat
  | _ => false
  end.

(** No tick of [es] reports a count above [N]. *)
Definition quiet (N : nat) (es : list Event) : Prop :=
  Forall (fun e => reportsAbove N e = false) es.

(** What [queryAgent] and the initializer never write: the conversation
    snapshot, the stored status, the two guards, the timers and the clock. *)
Definition handsOff (w0 w : World) : Prop :=
  conversationState (state w) = conversationState (state w0) /\
  status (state w) = status (state w0) /\
  isProcessingVideo (state w) = isProcessingVideo (state w0) /\
  isProcessingF9 (state w) = isProcessingF9 (state w0) /\
  timers w = timers w0 /\
  clock w = clock w0.

(** What a poll tick never writes. *)
Definition pollHandsOff (w0 w : World) : Prop :=
  loading (state w) = loading (state w0) /\
  initialized (state w) = initialized (state w0) /\
  isProcessingF9 (state w) = isProcessingF9 (state w0) /\
  timers w = timers w0 /\
  clock w = clock w0.

(** The tick started in state [s] on the replies [net] reaches one of its
    two conversation fetches. *)
Definition fetchesConversation (s : SyncState) (net : list Response) : bool :=
  match net with
  | RStatus sd :: _ =>
      (negb (is_recording (status s)) && negb (isProcessingVideo s)) ||
      (isProcessingVideo s && negb (is_recording sd)
         && (processed_video_count (status s) <? processed_video_count sd)%nat)
  | _ => false
  end.

(** [timersOk] with the bound on the pending timer: it is due within the
    1000 ms of the cooldown. *)
Definition cooldownOk (w : World) : Prop :=
  (isProcessingF9 (state w) = false /\ timers w = []) \/
  (isProcessingF9 (state w) = true /\
   exists due,
     timers w = [(due, setIsProcessingF9 false)] /\
     (clock w < due)%nat /\ (due <= clock w + 1000)%nat).

(** The entries of a log that record a call to [preventDefault]. *)
Definition isPrevented (e : Effect) : bool :=
  match e with DefaultPrevented => true | Sent _ => false end.

(** The ticks of [es] include one that received the snapshot [cd]. *)
Definition fetchedSnapshot (cd : ConversationSnapshot) (es : list Event) : Prop :=
  exists net, In (Poll net) es /\ In (RConversation cd) net.

(** The ticks of [es] include one whose status reply had the count [n]. *)
Definition fetchedCount (n : nat) (es : list Event) : Prop :=
  exists sd rest, In (Poll (RStatus sd :: rest)) es /\ processed_video_count sd = n.

(** ** The variant of [App.jsx] *)

(** [haystack.includes(needle)] *)
Fixpoint includes (needle haystack : string) : bool :=
  String.prefix needle haystack ||
  match haystack with
  | EmptyString => false
  | String _ rest => includes needle rest
  end.

(** The handlers of [ui/frontend/src/App.jsx] that differ from the ones
    above; [initializeConversation] and [queryAgent] are the same.  This
    variant has no [isProcessingVideo] cell: the field is never written. *)
Module AppJsx.

Definition fetchData : Prog unit :=
  try_catch
    (statusData <- fetchStatus ;;
     set (setStatus statusData) ;;
     conversationData <- fetchConversation ;;
     set (setConversationState conversationData) ;;
     publishLastAssistant conversationData)
    skip.

Definition handleKeyDown (r : SyncState) (key : string) : Prog unit :=
  if (key =? "F9")%string then
    if isProcessingF9 r then skip
    else
      preventDefault ;;
      set (setIsProcessingF9 true) ;;
      set (setLoading true) ;;
      try_finally
        (try_catch
           (message <- fetchToggle ;;
            match message with
            | EmptyString => skip
            | String _ _ =>
                if includes "Recording started" message then
                  set (setLastAgentResponse msgRecordingStarted)
                else if includes "Recording stopped" message then
                  set (setLastAgentResponse msgRecordingStopped)
                else skip
            end)
           (set (setLastAgentResponse msgToggleError)))
        (set (setLoading false) ;;
         setTimeout (setIsProcessingF9 false) 1000)
  else skip.

(** The page under this variant's handlers. *)
Definition step (w : World) (e : Event) : World :=
  match e with
  | Initialize net => snd (run (initializeConversation (state w)) net w)
  | Poll net => snd (run fetchData net w)
  | KeyDown key net => snd (run (handleKeyDown (state w) key) net w)
  | AgentQuery query net => snd (run (queryAgent query) net w)
  | Elapse dt => elapse dt w
  end.

Definition steps (w : World) (es : list Event) : World := fold_left step es w.

Definition reachable (w : World) : Prop := exists es, w = steps initialWorld es.

End AppJsx.

(** ** Invariants of handlers *)

Section Respects.

Variable J : World -> Prop.

Lemma respects_bind {A B : Type} (p : Prog A) (q : A -> Prog B) :
  respects J p -> (forall a, respects J (q a)) -> respects J (bind p q).
Proof.
  intros Hp Hq.
  induction p as [a| |f k IH|c k IH|f ms k IH|k IH]; cbn in *;
    try tauto; auto.
  destruct Hp as [Hc Hk]. split; [exact Hc|].
  intro r. apply IH. apply Hk.
Qed.

Lemma respects_try_catch {A : Type} (p h : Prog A) :
  respects J p -> respects J h -> respects J (try_catch p h).
Proof.
  intros Hp Hh.
  induction p as [a| |f k IH|c k IH|f ms k IH|k IH]; cbn in *;
    try tauto; auto.
  destruct Hp as [Hc Hk]. split; [exact Hc|].
  intro r. apply IH. apply Hk.
Qed.

Lemma respects_try_finally {A : Type} (p : Prog A) (f : Prog unit) :
  respects J p -> respects J f -> respects J (try_finally p f).
Proof.
  intros Hp Hf.
  induction p as [a| |g k IH|c k IH|g ms k IH|k IH]; cbn in *.
  - apply respects_bind; cbn; auto.
  - apply respects_bind; cbn; auto.
  - tauto.
  - destruct Hp as [Hc Hk]. split; [exact Hc|].
    intro r. apply IH. apply Hk.
  - tauto.
  - tauto.
Qed.

Lemma run_respects {A : Type} (p : Prog A) :
  respects J p -> forall net w, J w -> J (snd (run p net w)).
Proof.
  induction p as [a| |f k IH|c k IH|f ms k IH|k IH]; cbn; intros Hp net w Hw;
    try assumption.
  - destruct Hp as [Hf Hk]. apply IH; auto.
  - destruct Hp as [Hc Hk].
    destruct net as [|r net']; apply IH; auto.
  - destruct Hp as [Hf Hk]. apply IH; auto.
  - destruct Hp as [Hf Hk]. apply IH; auto.
Qed.

End Respects.

(** Splits [respects J p] along the structure of [p], leaving the proof
    obligations of the single effects. *)
Ltac respects_step :=
  match goal with
  | |- respects _ (bind _ _) => apply respects_bind; [|intro]
  | |- respects _ (try_catch _ _) => apply respects_try_catch
  | |- respects _ (try_finally _ _) => apply respects_try_finally
  | |- respects _ (if ?b then _ else _) => destruct b
  | |- respects _ (match ?x with Some _ => _ | None => _ end) => destruct x
  | |- respects _ (match ?x with [] => _ | _ :: _ => _ end) => destruct x
  | |- respects _ (match ?x with
                   | RStatus _ => _ | RConversation _ => _ | RToggle _ => _
                   | RAgent _ => _ | RFail => _ end) => destruct x
  | |- respects _ (let _ := _ in _) => cbv zeta
  | |- respects _ _ => progress cbn [respects set skip setTimeout preventDefault
                                     fetchStatus fetchConversation fetchToggle fetchAgent]
  | |- _ /\ _ => split
  | |- forall _, _ => intro
  | |- True => exact I
  end.

Lemma countIn_app (f : Effect -> bool) (l : list Effect) (e : Effect) :
  countIn f (l ++ [e]) = (countIn f l + (if f e then 1 else 0))%nat.
Proof.
  unfold countIn. rewrite filter_app, length_app. cbn.
  destruct (f e); reflexivity.
Qed.

Ltac leaf :=
  unfold untouched, toggleUntouched in *; cbn in *;
  rewrite ?countIn_app; cbn; rewrite ?Nat.add_0_r; tauto.

Lemma queryAgent_untouched (w0 : World) (query : string) :
  respects (untouched w0) (queryAgent query).
Proof.
  unfold queryAgent. repeat respects_step; leaf.
Qed.

Lemma initializeConversation_untouched (w0 : World) (r : SyncState) :
  respects (untouched w0) (initializeConversation r).
Proof.
  unfold initializeConversation.
  repeat first
    [ match goal with
      | |- respects _ (queryAgent _) => apply queryAgent_untouched
      end
    | respects_step ];
    leaf.
Qed.

Lemma fetchData_toggleUntouched (w0 : World) (r : SyncState) :
  respects (toggleUntouched w0) (fetchData r).
Proof.
  unfold fetchData, publishLastAssistant.
  repeat respects_step; leaf.
Qed.

Lemma untouched_refl (w : World) : untouched w w.
Proof. unfold untouched. tauto. Qed.

Lemma toggleUntouched_refl (w : World) : toggleUntouched w w.
Proof. unfold toggleUntouched. tauto. Qed.

Lemma step_Initialize_untouched (w : World) (net : list Response) :
  untouched w (step w (Initialize net)).
Proof.
  unfold step. apply run_respects.
  - apply initializeConversation_untouched.
  - apply untouched_refl.
Qed.

Lemma step_AgentQuery_untouched (w : World) (query : string) (net : list Response) :
  untouched w (step w (AgentQuery query net)).
Proof.
  unfold step. apply run_respects.
  - apply queryAgent_untouched.
  - apply untouched_refl.
Qed.

Lemma step_Poll_toggleUntouched (w : World) (net : list Response) :
  toggleUntouched w (step w (Poll net)).
Proof.
  unfold step. apply run_respects.
  - apply fetchData_toggleUntouched.
  - apply toggleUntouched_refl.
Qed.

(** ** The poll tick, case by case *)

(** Normalises a page built by [run]. *)
Ltac page :=
  unfold withState, logged, scheduled; cbn; rewrite <- ?app_assoc; cbn.

Lemma publishLastAssistant_cases (cd : ConversationSnapshot) :
  publishLastAssistant cd =
  match lastAssistant (history cd) with
  | Some m => set (setLastAgentResponse (content m))
  | None => skip
  end.
Proof.
  unfold publishLastAssistant. destruct (history cd); reflexivity.
Qed.

(** Unfolds a poll tick up to the tests on the fetched values. *)
Ltac tick := unfold step, fetchData; cbn -[Nat.ltb].

(** Resolves the publication of the last assistant message. *)
Ltac publish :=
  rewrite ?publishLastAssistant_cases; unfold publishFrom;
  try match goal with
    | |- context [lastAssistant ?l] => destruct (lastAssistant l) eqn:?
    end;
  page.

(** A tick whose status fetch fails only records the attempt. *)
Lemma poll_status_failed (w : World) (net : list Response) :
  (forall sd rest, net <> RStatus sd :: rest) ->
  step w (Poll net) = logged (Sent GetStatus) w.
Proof.
  intro Hnet. cbn. unfold fetchData. cbn.
  destruct net as [|r rest]; [reflexivity|].
  destruct r; try reflexivity.
  exfalso. eapply Hnet. reflexivity.
Qed.

(** The full adopt of a tick started in a stable state. *)
Lemma poll_stable (w : World) (sd : Status) (cd : ConversationSnapshot)
      (rest : list Response) :
  stable (state w) ->
  step w (Poll (RStatus sd :: RConversation cd :: rest)) =
  {| state := publishFrom cd (setConversationState cd (setStatus sd (state w)));
     clock := clock w;
     timers := timers w;
     log := (log w ++ [Sent GetStatus; Sent GetConversation])%list |}.
Proof.
  intros [Hrec Hproc]. cbn. unfold fetchData. rewrite Hrec, Hproc. cbn.
  unfold publishLastAssistant, publishFrom.
  destruct (history cd) as [|m h] eqn:Hh.
  - page. reflexivity.
  - destruct (lastAssistant (m :: h)); page; reflexivity.
Qed.

(** The same tick when the conversation fetch fails: the status is adopted
    and the rest of the tick is skipped. *)
Lemma poll_stable_conversation_failed (w : World) (sd : Status) (net : list Response) :
  stable (state w) ->
  (forall cd rest, net <> RConversation cd :: rest) ->
  step w (Poll (RStatus sd :: net)) =
  {| state := setStatus sd (state w);
     clock := clock w;
     timers := timers w;
     log := (log w ++ [Sent GetStatus; Sent GetConversation])%list |}.
Proof.
  intros [Hrec Hproc] Hnet. cbn. unfold fetchData. rewrite Hrec, Hproc. cbn.
  destruct net as [|r rest]; [page; reflexivity|].
  destruct r; page; try reflexivity.
  exfalso. eapply Hnet. reflexivity.
Qed.

(** ** The latest assistant message *)

Lemma pop_snoc {A : Type} (l : list A) (x : A) : pop (l ++ [x]) = Some x.
Proof.
  induction l as [|y l IH]; [reflexivity|].
  cbn. rewrite IH. destruct l; reflexivity.
Qed.

Lemma filter_none (h : list Message) :
  (forall x, In x h -> role x <> "assistant") -> filter isAssistant h = [].
Proof.
  induction h as [|x h IH]; intro Hno; [reflexivity|].
  cbn. unfold isAssistant at 1.
  destruct (String.eqb_spec (role x) "assistant") as [Heq|Hne].
  - exfalso. apply (Hno x); [left; reflexivity|exact Heq].
  - apply IH. intros y Hy. apply Hno. right. exact Hy.
Qed.

(** [lastAssistant] picks the message after which no assistant message
    follows. *)
Lemma lastAssistant_last (h1 h2 : list Message) (m : Message) :
  role m = "assistant" ->
  (forall x, In x h2 -> role x <> "assistant") ->
  lastAssistant (h1 ++ m :: h2) = Some m.
Proof.
  intros Hm Hno. unfold lastAssistant.
  rewrite filter_app. cbn. unfold isAssistant at 2. rewrite Hm. cbn.
  rewrite (filter_none h2 Hno). apply pop_snoc.
Qed.

Lemma lastAssistant_none (h : list Message) :
  (forall x, In x h -> role x <> "assistant") -> lastAssistant h = None.
Proof.
  intro Hno. unfold lastAssistant. rewrite (filter_none h Hno). reflexivity.
Qed.

Lemma existsb_none (h : list Message) :
  (forall x, In x h -> role x <> "assistant") -> existsb isAssistant h = false.
Proof.
  induction h as [|x h IH]; intro Hno; [reflexivity|].
  cbn. unfold isAssistant at 1.
  destruct (String.eqb_spec (role x) "assistant") as [Heq|Hne].
  - exfalso. apply (Hno x); [left; reflexivity|exact Heq].
  - apply IH. intros y Hy. apply Hno. right. exact Hy.
Qed.

Lemma existsb_some (h1 h2 : list Message) (m : Message) :
  role m = "assistant" -> existsb isAssistant (h1 ++ m :: h2) = true.
Proof.
  intro Hm. rewrite existsb_app. cbn. unfold isAssistant at 2.
  rewrite Hm. cbn. apply orb_true_r.
Qed.

(** ** The poller *)

(** C6. A poll tick started in the stable state (not recording, not
    processing) whose two fetches succeed adopts the fetched status and the
    fetched conversation snapshot wholesale, with one call to each endpoint;
    it publishes the content of the last message of the fetched history whose
    role is assistant, and leaves [lastAgentResponse] unchanged when the
    history has no such message. *)
Theorem stable_poll_adopts_wholesale
    (w : World) (sd : Status) (cd : ConversationSnapshot) (rest : list Response) :
  stable (state w) ->
  let w' := step w (Poll (RStatus sd :: RConversation cd :: rest)) in
  status (state w') = sd /\
  conversationState (state w') = cd /\
  log w' = (log w ++ [Sent GetStatus; Sent GetConversation])%list /\
  (forall h1 m h2,
      history cd = h1 ++ m :: h2 ->
      role m = "assistant" ->
      (forall x, In x h2 -> role x <> "assistant") ->
      lastAgentResponse (state w') = content m) /\
  ((forall x, In x (history cd) -> role x <> "assistant") ->
   lastAgentResponse (state w') = lastAgentResponse (state w)).
Proof.
  intros Hst w'. subst w'. rewrite (poll_stable w sd cd rest Hst). cbn.
  unfold publishFrom. repeat split.
  - destruct (lastAssistant (history cd)); reflexivity.
  - destruct (lastAssistant (history cd)); reflexivity.
  - intros h1 m h2 Hh Hm Hno.
    rewrite Hh, (lastAssistant_last h1 h2 m Hm Hno). reflexivity.
  - intro Hno. rewrite (lastAssistant_none _ Hno). reflexivity.
Qed.

Lemma stable_poll_adopts_wholesale_witness :
  let cd := {| history := [ {| role := "assistant"; content := "first" |};
                            {| role := "user"; content := "and then?" |};
                            {| role := "assistant"; content := "second" |};
                            {| role := "user"; content := "thanks" |} ];
               videos := [];
               memory_context := emptyMemory |} in
  let sd := {| is_recording := false; processed_video_count := 2 |} in
  let w' := step initialWorld (Poll [RStatus sd; RConversation cd]) in
  status (state w') = sd /\
  conversationState (state w') = cd /\
  lastAgentResponse (state w') = "second".
Proof.
  cbv zeta.
  destruct (stable_poll_adopts_wholesale
              initialWorld
              {| is_recording := false; processed_video_count := 2 |}
              {| history := [ {| role := "assistant"; content := "first" |};
                              {| role := "user"; content := "and then?" |};
                              {| role := "assistant"; content := "second" |};
                              {| role := "user"; content := "thanks" |} ];
                 videos := [];
                 memory_context := emptyMemory |}
              [])
    as (Hs & Hc & _ & Hlast & _).
  - split; reflexivity.
  - split; [exact Hs|]. split; [exact Hc|].
    apply (Hlast [ {| role := "assistant"; content := "first" |};
                   {| role := "user"; content := "and then?" |} ]
                 {| role := "assistant"; content := "second" |}
                 [ {| role := "user"; content := "thanks" |} ]).
    + reflexivity.
    + reflexivity.
    + intros x [<-|[]]. cbn. discriminate.
Defined.

(** C1. A poll tick run while [isProcessingVideo] is true that fetches a
    status with [is_recording = false] and a count above the stored one
    adopts that status, clears [isProcessingVideo] and makes exactly one
    conversation fetch; when that fetch succeeds the snapshot is adopted and
    its last assistant message, if any, is published.  The state it leaves is
    stable, so the next tick adopts status and conversation in full. *)
Theorem completion_edge_adopts_and_resumes
    (w : World) (sd : Status) (net : list Response) :
  isProcessingVideo (state w) = true ->
  is_recording sd = false ->
  (processed_video_count (status (state w)) < processed_video_count sd)%nat ->
  let w' := step w (Poll (RStatus sd :: net)) in
  status (state w') = sd /\
  isProcessingVideo (state w') = false /\
  log w' = (log w ++ [Sent GetStatus; Sent GetConversation])%list /\
  (forall cd rest,
      net = RConversation cd :: rest ->
      conversationState (state w') = cd /\
      forall h1 m h2,
        history cd = h1 ++ m :: h2 ->
        role m = "assistant" ->
        (forall x, In x h2 -> role x <> "assistant") ->
        lastAgentResponse (state w') = content m) /\
  (forall sd' cd' rest',
      let w'' := step w' (Poll (RStatus sd' :: RConversation cd' :: rest')) in
      status (state w'') = sd' /\ conversationState (state w'') = cd').
Proof.
  intros Hproc Hrec Hlt w'.
  apply Nat.ltb_lt in Hlt.
  assert (Hshape :
            status (state w') = sd /\
            isProcessingVideo (state w') = false /\
            log w' = (log w ++ [Sent GetStatus; Sent GetConversation])%list).
  { subst w'. tick. rewrite Hproc, Hrec, Hlt.
    destruct (is_recording (status (state w))); cbn;
      destruct net as [|r rest]; try destruct r; cbn; publish; auto. }
  destruct Hshape as (Hs & Hp & Hl).
  split; [exact Hs|]. split; [exact Hp|]. split; [exact Hl|]. split.
  - intros cd rest ->. subst w'. tick. rewrite Hproc, Hrec, Hlt.
    destruct (is_recording (status (state w))); cbn;
      rewrite publishLastAssistant_cases;
      (split; [destruct (lastAssistant (history cd)); reflexivity|]);
      intros h1 m h2 Hh Hm Hno;
      rewrite Hh, (lastAssistant_last h1 h2 m Hm Hno); reflexivity.
  - intros sd' cd' rest' w''. subst w''.
    rewrite poll_stable.
    + cbn. unfold publishFrom.
      destruct (lastAssistant (history cd')); cbn; auto.
    + split; [rewrite Hs; exact Hrec|exact Hp].
Qed.

Lemma completion_edge_adopts_and_resumes_witness :
  let w := steps initialWorld
             [KeyDown "F9" [RToggle "Recording started"];
              Poll [RStatus {| is_recording := false; processed_video_count := 0 |}]] in
  let sd := {| is_recording := false; processed_video_count := 1 |} in
  let cd := {| history := [ {| role := "assistant"; content := "Video analysed." |} ];
               videos := [];
               memory_context := emptyMemory |} in
  let w' := step w (Poll [RStatus sd; RConversation cd]) in
  isProcessingVideo (state w) = true /\
  status (state w') = sd /\
  isProcessingVideo (state w') = false /\
  conversationState (state w') = cd.
Proof.
  cbv zeta.
  destruct (completion_edge_adopts_and_resumes
              (steps initialWorld
                 [KeyDown "F9" [RToggle "Recording started"];
                  Poll [RStatus {| is_recording := false;
                                   processed_video_count := 0 |}]])
              {| is_recording := false; processed_video_count := 1 |}
              [RConversation
                 {| history := [ {| role := "assistant";
                                    content := "Video analysed." |} ];
                    videos := [];
                    memory_context := emptyMemory |}])
    as (Hs & Hp & _ & Hconv & _).
  - reflexivity.
  - reflexivity.
  - cbn. lia.
  - split; [reflexivity|]. split; [exact Hs|]. split; [exact Hp|].
    exact (proj1 (Hconv _ _ eq_refl)).
Defined.

(** A tick never assembles a snapshot: the one in state is kept or is one
    of the fetched snapshots. *)
Lemma poll_conversation_whole (w : World) (net : list Response) :
  conversationState (state (step w (Poll net))) = conversationState (state w) \/
  exists cd,
    In (RConversation cd) net /\
    conversationState (state (step w (Poll net))) = cd.
Proof.
  tick.
  destruct net as [|r net]; [left; reflexivity|].
  destruct r; try (left; reflexivity). cbn -[Nat.ltb].
  destruct (is_recording (status (state w))),
           (isProcessingVideo (state w)),
           (is_recording s),
           (processed_video_count (status (state w)) <? processed_video_count s)%nat;
    cbn; try (left; reflexivity);
    (destruct net as [|r net]; [left; reflexivity|]);
    destruct r; cbn; try (left; reflexivity);
    right; eexists; (split; [right; left; reflexivity|]);
    publish; reflexivity.
Qed.

(** C5. In a recording or processing window, a poll tick on which neither
    the stop edge nor the completion edge fires makes the status call only
    and changes nothing but the [is_recording] field of the stored status:
    the count, the conversation snapshot and [lastAgentResponse] are as
    before.  On every tick, whatever the state, the conversation snapshot
    afterwards is the one before or a snapshot the tick fetched. *)
Theorem partial_update_touches_only_is_recording :
  (forall (w : World) (sd : Status) (net : list Response),
      is_recording (status (state w)) = true \/ isProcessingVideo (state w) = true ->
      ~ (is_recording (status (state w)) = true /\ is_recording sd = false) ->
      ~ (isProcessingVideo (state w) = true /\ is_recording sd = false /\
         (processed_video_count (status (state w)) < processed_video_count sd)%nat) ->
      let w' := step w (Poll (RStatus sd :: net)) in
      state w' = recordingOnly sd (state w) /\
      is_recording (status (state w')) = is_recording sd /\
      processed_video_count (status (state w')) =
        processed_video_count (status (state w)) /\
      conversationState (state w') = conversationState (state w) /\
      lastAgentResponse (state w') = lastAgentResponse (state w) /\
      log w' = log w ++ [Sent GetStatus]) /\
  (forall (w : World) (net : list Response),
      conversationState (state (step w (Poll net))) = conversationState (state w) \/
      exists cd,
        In (RConversation cd) net /\
        conversationState (state (step w (Poll net))) = cd).
Proof.
  split; [|exact poll_conversation_whole].
  intros w sd net Hwin Hstop Hcompl w'.
  assert (Hw' : state w' = recordingOnly sd (state w) /\
                log w' = log w ++ [Sent GetStatus]).
  { subst w'. tick. unfold recordingOnly.
    destruct (is_recording (status (state w))) eqn:Hr,
             (isProcessingVideo (state w)) eqn:Hp,
             (is_recording sd) eqn:Hs,
             (processed_video_count (status (state w)) <? processed_video_count sd)%nat eqn:Hlt;
      cbn; try (split; reflexivity);
      try (exfalso; apply Hstop; split; reflexivity);
      try (exfalso; apply Hcompl; apply Nat.ltb_lt in Hlt; repeat split; assumption).
    all: destruct Hwin; discriminate. }
  destruct Hw' as [Hst Hlog]. rewrite Hst.
  repeat split; try reflexivity. exact Hlog.
Qed.

(** The partial update, on a tick made while recording that still reports
    a recording. *)
Lemma partial_update_touches_only_is_recording_witness :
  let w := withState (setStatus {| is_recording := true; processed_video_count := 3 |})
                     initialWorld in
  let sd := {| is_recording := true; processed_video_count := 4 |} in
  let w' := step w (Poll [RStatus sd]) in
  processed_video_count (status (state w')) = 3 /\
  lastAgentResponse (state w') = "".
Proof.
  cbv zeta.
  destruct (proj1 partial_update_touches_only_is_recording
              (withState (setStatus {| is_recording := true; processed_video_count := 3 |})
                         initialWorld)
              {| is_recording := true; processed_video_count := 4 |}
              [])
    as (_ & _ & Hcount & _ & Hlast & _).
  - left. reflexivity.
  - intros [_ H]. discriminate H.
  - intros [H _]. discriminate H.
  - split; [exact Hcount|exact Hlast].
Defined.

(** ** The recording toggle *)

(** The guard of [handleKeyDown]. *)
Lemma blocked_keydown (w : World) (net : list Response) :
  isProcessingF9 (state w) = true \/ isProcessingVideo (state w) = true ->
  step w (KeyDown "F9" net) = w.
Proof.
  intro Hguard. unfold step, handleKeyDown. cbn.
  assert (Hor : isProcessingF9 (state w) || isProcessingVideo (state w) = true).
  { destruct Hguard as [H|H]; rewrite H; [reflexivity|apply orb_true_r]. }
  rewrite Hor. reflexivity.
Qed.

(** C4. An F9 [keydown] received while [isProcessingF9] or
    [isProcessingVideo] is true does nothing: no call is made, the default
    action is not prevented, no timer is set and no state cell changes. *)
Theorem guarded_keydown_is_noop (w : World) (net : list Response) :
  isProcessingF9 (state w) = true \/ isProcessingVideo (state w) = true ->
  step w (KeyDown "F9" net) = w /\
  suspended (handleKeyDown (state w) "F9") (state w) = (state w, None).
Proof.
  intro Hguard. split; [apply blocked_keydown; exact Hguard|].
  unfold handleKeyDown. cbn.
  assert (Hor : isProcessingF9 (state w) || isProcessingVideo (state w) = true).
  { destruct Hguard as [H|H]; rewrite H; [reflexivity|apply orb_true_r]. }
  rewrite Hor. reflexivity.
Qed.

Lemma guarded_keydown_is_noop_witness :
  let w := withState (setIsProcessingVideo true) initialWorld in
  step w (KeyDown "F9" [RToggle "Recording started"]) = w.
Proof.
  cbv zeta.
  apply (guarded_keydown_is_noop
           (withState (setIsProcessingVideo true) initialWorld)
           [RToggle "Recording started"]).
  right. reflexivity.
Defined.

(** Keys other than F9 are ignored as well. *)
Lemma other_key_is_noop (w : World) (key : string) (net : list Response) :
  key <> "F9" -> step w (KeyDown key net) = w.
Proof.
  intro Hkey. unfold step, handleKeyDown.
  destruct (String.eqb_spec key "F9") as [Heq|_]; [contradiction|reflexivity].
Qed.

(** An accepted F9 press, in full: the page after the handler has run. *)
Lemma accepted_keydown (w : World) (net : list Response) :
  isProcessingF9 (state w) = false ->
  isProcessingVideo (state w) = false ->
  step w (KeyDown "F9" net) =
  {| state :=
       (match net with
        | RToggle _ :: _ => flipRecording
        | _ => setLastAgentResponse msgToggleError
        end)
         ((if is_recording (status (state w)) then fun s => s
           else setLastAgentResponse msgRecordingStarted)
            (setIsProcessingF9 true (state w)));
     clock := clock w;
     timers := timers w ++ [(clock w + 1000, setIsProcessingF9 false)];
     log := log w ++ [DefaultPrevented; Sent PostToggleRecording] |}.
Proof.
  intros HF9 Hproc. unfold step, handleKeyDown. cbn.
  rewrite HF9, Hproc. cbn.
  destruct (is_recording (status (state w))); cbn;
    destruct net as [|r rest]; try destruct r; page; reflexivity.
Qed.

(** C7. On an accepted F9 press made while not recording, the handler waits
    for the toggle call with the recording-started message already in
    [lastAgentResponse].  Whatever the recording state: when the call
    succeeds the stored [is_recording] is negated, and when it fails the
    error message is published and the stored status is unchanged; in both
    cases [isProcessingVideo] stays false. *)
Theorem toggle_publishes_then_flips_or_reports
    (w : World) (net : list Response) :
  isProcessingF9 (state w) = false ->
  isProcessingVideo (state w) = false ->
  let w' := step w (KeyDown "F9" net) in
  (is_recording (status (state w)) = false ->
   exists s,
     suspended (handleKeyDown (state w) "F9") (state w) = (s, Some PostToggleRecording) /\
     lastAgentResponse s = msgRecordingStarted /\
     status s = status (state w)) /\
  (forall message rest,
      net = RToggle message :: rest ->
      is_recording (status (state w')) = negb (is_recording (status (state w))) /\
      processed_video_count (status (state w')) =
        processed_video_count (status (state w))) /\
  ((forall message rest, net <> RToggle message :: rest) ->
   lastAgentResponse (state w') = msgToggleError /\
   status (state w') = status (state w)) /\
  isProcessingVideo (state w') = false /\
  countIn isToggleCall (log w') = S (countIn isToggleCall (log w)).
Proof.
  intros HF9 Hproc w'. subst w'.
  rewrite (accepted_keydown w net HF9 Hproc). cbn.
  split; [|split; [|split; [|split]]].
  - intro Hrec. unfold handleKeyDown. cbn.
    rewrite HF9, Hproc, Hrec. cbn. eexists. split; [reflexivity|].
    split; reflexivity.
  - intros message rest ->.
    destruct (is_recording (status (state w))) eqn:Hrec; cbn; rewrite Hrec;
      split; reflexivity.
  - intro Hfail.
    destruct net as [|r rest]; try destruct r;
      destruct (is_recording (status (state w))) eqn:Hrec; cbn;
      try (split; reflexivity);
      exfalso; eapply Hfail; reflexivity.
  - destruct net as [|r rest]; try destruct r;
      destruct (is_recording (status (state w))); cbn; exact Hproc.
  - replace (log w ++ [DefaultPrevented; Sent PostToggleRecording])
      with ((log w ++ [DefaultPrevented]) ++ [Sent PostToggleRecording])
      by (rewrite <- app_assoc; reflexivity).
    rewrite !countIn_app. cbn. lia.
Qed.

Lemma toggle_publishes_then_flips_or_reports_witness :
  let w' := step initialWorld (KeyDown "F9" [RToggle "Recording started"]) in
  is_recording (status (state w')) = true /\
  isProcessingVideo (state w') = false.
Proof.
  cbv zeta.
  destruct (toggle_publishes_then_flips_or_reports
              initialWorld [RToggle "Recording started"] eq_refl eq_refl)
    as (_ & Hok & _ & Hproc & _).
  split; [|exact Hproc].
  exact (proj1 (Hok "Recording started" [] eq_refl)).
Defined.

(** ** The session initializer *)

(** Case analysis on the replies and tests met by a running handler. *)
Ltac crunch :=
  repeat (cbn -[Nat.ltb] in *;
          match goal with
          | |- context [match ?net with [] => _ | _ :: _ => _ end] =>
              is_var net; destruct net as [|[] ?]
          | |- context [if ?b then _ else _] => destruct b eqn:?
          | |- context [match lastAssistant ?l with _ => _ end] =>
              destruct (lastAssistant l) eqn:?
          end).

Lemma initialized_gate (w : World) (net : list Response) :
  initialized (state w) = true -> step w (Initialize net) = w.
Proof.
  intro Hinit. unfold step, initializeConversation. rewrite Hinit. reflexivity.
Qed.

(** The initializer stops at a failed status fetch without marking the
    session initialized. *)
Lemma initializer_failure_leaves_uninitialized :
  let w' := step initialWorld (Initialize [RFail]) in
  initialized (state w') = false /\
  log w' = [Sent GetStatus] /\
  loading (state w') = false.
Proof. cbv zeta. repeat split; reflexivity. Qed.

(** C3, as the code has it.  [setInitialized(true)] is the last statement
    of the [try] block, and the [finally] step only clears [loading].  After
    a run started with [initialized = false], [initialized] is true exactly
    when the status fetch and, for a positive count, the conversation fetch
    succeeded, whether or not the bootstrap query then failed; [loading] is
    false in every case; and once [initialized] is true a further run of the
    initializer does nothing. *)
Theorem initializer_marks_initialized_after_fetches
    (w : World) (net : list Response) :
  initialized (state w) = false ->
  let w' := step w (Initialize net) in
  initialized (state w') = initFetchesSucceed net /\
  loading (state w') = false /\
  (initialized (state w') = true ->
   forall net', step w' (Initialize net') = w').
Proof.
  intros Hinit w'.
  assert (H : initialized (state w') = initFetchesSucceed net /\
              loading (state w') = false).
  { subst w'. unfold step, initializeConversation, queryAgent.
    rewrite Hinit. crunch; split; solve [reflexivity | assumption]. }
  destruct H as [Hi Hl]. repeat split; try assumption.
  intros Htrue net'. apply initialized_gate. exact Htrue.
Qed.

Lemma initializer_marks_initialized_after_fetches_witness :
  let w' := step initialWorld
                 (Initialize [RStatus {| is_recording := false;
                                         processed_video_count := 0 |};
                              RFail]) in
  initialized (state w') = true /\ loading (state w') = false.
Proof.
  cbv zeta.
  destruct (initializer_marks_initialized_after_fetches
              initialWorld
              [RStatus {| is_recording := false; processed_video_count := 0 |};
               RFail]
              eq_refl)
    as (Hi & Hl & _).
  split; [exact Hi|exact Hl].
Defined.

(** C9. The initializer does nothing once [initialized] is true.  Run with
    [initialized = false]: on a fetched count of 0 it makes the status call
    and one agent query, the welcome query; on a positive count with an
    assistant message in the fetched history it makes the status and
    conversation calls, no agent query, and sets [lastAgentResponse] to the
    content of the last assistant message; on a positive count with no
    assistant message it follows the two fetches with the summarize query. *)
Theorem initializer_bootstrap_cases :
  (forall (w : World) (net : list Response),
      initialized (state w) = true -> step w (Initialize net) = w) /\
  (forall (w : World) (sd : Status) (rest : list Response),
      initialized (state w) = false ->
      processed_video_count sd = 0 ->
      let w' := step w (Initialize (RStatus sd :: rest)) in
      log w' = log w ++ [Sent GetStatus;
                         Sent (PostAgentQuery "What can I do with this system?")]) /\
  (forall (w : World) (sd : Status) (cd : ConversationSnapshot)
          (rest : list Response) (h1 h2 : list Message) (m : Message),
      initialized (state w) = false ->
      (0 < processed_video_count sd)%nat ->
      history cd = h1 ++ m :: h2 ->
      role m = "assistant" ->
      (forall x, In x h2 -> role x <> "assistant") ->
      let w' := step w (Initialize (RStatus sd :: RConversation cd :: rest)) in
      log w' = log w ++ [Sent GetStatus; Sent GetConversation] /\
      lastAgentResponse (state w') = content m) /\
  (forall (w : World) (sd : Status) (cd : ConversationSnapshot)
          (rest : list Response),
      initialized (state w) = false ->
      (0 < processed_video_count sd)%nat ->
      (forall x, In x (history cd) -> role x <> "assistant") ->
      let w' := step w (Initialize (RStatus sd :: RConversation cd :: rest)) in
      log w' =
      log w ++ [Sent GetStatus; Sent GetConversation;
                Sent (PostAgentQuery
                        "Please summarize what videos I have available and what I can do with them.")]).
Proof.
  split; [exact initialized_gate|]. split; [|split].
  - intros w sd rest Hinit Hzero w'. subst w'.
    unfold step, initializeConversation, queryAgent.
    rewrite Hinit. cbn -[Nat.ltb]. rewrite Hzero. cbn.
    destruct rest as [|r rest]; try destruct r; page; reflexivity.
  - intros w sd cd rest h1 h2 m Hinit Hpos Hh Hm Hno w'. subst w'.
    apply Nat.ltb_lt in Hpos.
    unfold step, initializeConversation.
    rewrite Hinit. cbn -[Nat.ltb]. rewrite Hpos. cbn.
    rewrite Hh, (existsb_some h1 h2 m Hm), (lastAssistant_last h1 h2 m Hm Hno).
    page. split; reflexivity.
  - intros w sd cd rest Hinit Hpos Hno w'. subst w'.
    apply Nat.ltb_lt in Hpos.
    unfold step, initializeConversation, queryAgent.
    rewrite Hinit. cbn -[Nat.ltb]. rewrite Hpos. cbn.
    rewrite (existsb_none _ Hno). cbn.
    destruct rest as [|r rest]; try destruct r; page; reflexivity.
Qed.

Lemma initializer_bootstrap_cases_witness :
  let cd := {| history := [ {| role := "user"; content := "hello" |};
                            {| role := "assistant"; content := "Two videos so far." |} ];
               videos := [];
               memory_context := emptyMemory |} in
  let w' := step initialWorld
                 (Initialize [RStatus {| is_recording := false;
                                         processed_video_count := 2 |};
                              RConversation cd]) in
  log w' = [Sent GetStatus; Sent GetConversation] /\
  lastAgentResponse (state w') = "Two videos so far.".
Proof.
  cbv zeta.
  apply (proj1 (proj2 (proj2 initializer_bootstrap_cases))
           initialWorld
           {| is_recording := false; processed_video_count := 2 |}
           {| history := [ {| role := "user"; content := "hello" |};
                           {| role := "assistant"; content := "Two videos so far." |} ];
              videos := [];
              memory_context := emptyMemory |}
           []
           [ {| role := "user"; content := "hello" |} ]
           []
           {| role := "assistant"; content := "Two videos so far." |}).
  - reflexivity.
  - cbn. lia.
  - reflexivity.
  - reflexivity.
  - intros x [].
Defined.

(** ** Timers and the cooldown *)

Lemma keydown_cases (w : World) (key : string) (net : list Response) :
  step w (KeyDown key net) = w \/
  (key = "F9" /\ isProcessingF9 (state w) = false /\ isProcessingVideo (state w) = false).
Proof.
  destruct (String.eqb_spec key "F9") as [->|Hne].
  - destruct (isProcessingF9 (state w)) eqn:HF9.
    + left. apply blocked_keydown. left. exact HF9.
    + destruct (isProcessingVideo (state w)) eqn:Hp.
      * left. apply blocked_keydown. right. exact Hp.
      * right. repeat split; reflexivity.
  - left. apply other_key_is_noop. exact Hne.
Qed.

Lemma accepted_keydown_pending (w : World) (net : list Response) :
  isProcessingF9 (state w) = false ->
  isProcessingVideo (state w) = false ->
  let w' := step w (KeyDown "F9" net) in
  isProcessingF9 (state w') = true /\
  isProcessingVideo (state w') = false /\
  processed_video_count (status (state w')) = processed_video_count (status (state w)) /\
  timers w' = timers w ++ [(clock w + 1000, setIsProcessingF9 false)] /\
  clock w' = clock w /\
  countIn isToggleCall (log w') = S (countIn isToggleCall (log w)).
Proof.
  intros HF9 Hp w'. subst w'. rewrite (accepted_keydown w net HF9 Hp). cbn.
  repeat split.
  - destruct net as [|r rest]; try destruct r;
      destruct (is_recording (status (state w))); reflexivity.
  - destruct net as [|r rest]; try destruct r;
      destruct (is_recording (status (state w))); cbn; exact Hp.
  - destruct net as [|r rest]; try destruct r;
      destruct (is_recording (status (state w))); reflexivity.
  - replace (log w ++ [DefaultPrevented; Sent PostToggleRecording])
      with ((log w ++ [DefaultPrevented]) ++ [Sent PostToggleRecording])
      by (rewrite <- app_assoc; reflexivity).
    rewrite !countIn_app. cbn. lia.
Qed.

Lemma elapse_no_timer (dt : nat) (w : World) :
  timers w = [] ->
  state (elapse dt w) = state w /\ timers (elapse dt w) = [].
Proof.
  intro Ht. unfold elapse. rewrite Ht. cbn. split; reflexivity.
Qed.

Lemma elapse_before_due (dt due : nat) (f : SyncState -> SyncState) (w : World) :
  timers w = [(due, f)] ->
  (clock w + dt < due)%nat ->
  state (elapse dt w) = state w /\ timers (elapse dt w) = [(due, f)].
Proof.
  intros Ht Hlt. unfold elapse. rewrite Ht. cbn.
  destruct (Nat.leb_spec due (clock w + dt)) as [Hle|_]; [lia|].
  cbn. split; reflexivity.
Qed.

Lemma elapse_past_due (dt due : nat) (f : SyncState -> SyncState) (w : World) :
  timers w = [(due, f)] ->
  (due <= clock w + dt)%nat ->
  state (elapse dt w) = f (state w) /\ timers (elapse dt w) = [].
Proof.
  intros Ht Hle. unfold elapse. rewrite Ht. cbn.
  destruct (Nat.leb_spec due (clock w + dt)) as [_|Hlt]; [|lia].
  cbn. split; reflexivity.
Qed.

Lemma timersOk_step (w : World) (e : Event) : timersOk w -> timersOk (step w e).
Proof.
  intro Hok. destruct e as [net|net|key net|query net|dt].
  - destruct (step_Initialize_untouched w net) as (_ & _ & HF9 & Ht & Hc & _).
    unfold timersOk. rewrite HF9, Ht, Hc. exact Hok.
  - destruct (step_Poll_toggleUntouched w net) as (HF9 & Ht & Hc & _).
    unfold timersOk. rewrite HF9, Ht, Hc. exact Hok.
  - destruct (keydown_cases w key net) as [->|(-> & HF9 & Hp)]; [exact Hok|].
    destruct (accepted_keydown_pending w net HF9 Hp) as (HF9' & _ & _ & Ht & Hc & _).
    right. split; [exact HF9'|].
    destruct Hok as [[_ Hnil]|[Htrue _]]; [|congruence].
    exists (clock w + 1000)%nat. rewrite Ht, Hnil, Hc. split; [reflexivity|lia].
  - destruct (step_AgentQuery_untouched w query net) as (_ & _ & HF9 & Ht & Hc & _).
    unfold timersOk. rewrite HF9, Ht, Hc. exact Hok.
  - cbn [step]. destruct Hok as [[HF9 Hnil]|[HF9 (due & Ht & Hlt)]].
    + destruct (elapse_no_timer dt w Hnil) as [Hs Ht].
      left. rewrite Hs, Ht. split; [exact HF9|reflexivity].
    + destruct (Nat.leb_spec due (clock w + dt)) as [Hle|Hgt].
      * destruct (elapse_past_due dt due _ w Ht Hle) as [Hs Ht'].
        left. rewrite Hs, Ht'. split; reflexivity.
      * destruct (elapse_before_due dt due _ w Ht Hgt) as [Hs Ht'].
        right. rewrite Hs, Ht'. split; [exact HF9|].
        exists due. split; [reflexivity|]. cbn. exact Hgt.
Qed.

Lemma steps_snoc (w : World) (es : list Event) (e : Event) :
  steps w (es ++ [e]) = step (steps w es) e.
Proof. unfold steps. rewrite fold_left_app. reflexivity. Qed.

Lemma reachable_timersOk (w : World) : reachable w -> timersOk w.
Proof.
  intros [es ->]. induction es as [|e es IH] using rev_ind.
  - left. split; reflexivity.
  - rewrite steps_snoc. apply timersOk_step. exact IH.
Qed.

Lemma cooling_step (t0 n k : nat) (w : World) (e : Event) :
  cooling t0 n k w ->
  (k + elapsedOf e < 1000)%nat ->
  cooling t0 n (k + elapsedOf e) (step w e).
Proof.
  intros (HF9 & Ht & Hc & Hn) Hlt.
  destruct e as [net|net|key net|query net|dt]; cbn [elapsedOf] in *;
    rewrite ?Nat.add_0_r.
  - destruct (step_Initialize_untouched w net) as (_ & _ & HF9' & Ht' & Hc' & Hn').
    unfold cooling. rewrite HF9', Ht', Hc', Hn'. tauto.
  - destruct (step_Poll_toggleUntouched w net) as (HF9' & Ht' & Hc' & Hn').
    unfold cooling. rewrite HF9', Ht', Hc', Hn'. tauto.
  - destruct (keydown_cases w key net) as [->|(_ & Hfalse & _)];
      [unfold cooling; tauto|congruence].
  - destruct (step_AgentQuery_untouched w query net) as (_ & _ & HF9' & Ht' & Hc' & Hn').
    unfold cooling. rewrite HF9', Ht', Hc', Hn'. tauto.
  - cbn [step].
    destruct (elapse_before_due dt (t0 + 1000) _ w Ht) as [Hs Ht']; [lia|].
    unfold cooling. rewrite Hs, Ht'. cbn. repeat split; try assumption. lia.
Qed.

Lemma steps_cons (w : World) (e : Event) (es : list Event) :
  steps w (e :: es) = steps (step w e) es.
Proof. reflexivity. Qed.

Lemma elapsed_cons (e : Event) (es : list Event) :
  elapsed (e :: es) = (elapsedOf e + elapsed es)%nat.
Proof. reflexivity. Qed.

Lemma cooling_steps (t0 n : nat) (es : list Event) (k : nat) (w : World) :
  cooling t0 n k w ->
  (k + elapsed es < 1000)%nat ->
  cooling t0 n (k + elapsed es) (steps w es).
Proof.
  revert k w. induction es as [|e es IH]; intros k w Hcool Hlt.
  - cbn. rewrite Nat.add_0_r. exact Hcool.
  - rewrite steps_cons. rewrite elapsed_cons in *.
    replace (k + (elapsedOf e + elapsed es))%nat
      with ((k + elapsedOf e) + elapsed es)%nat by lia.
    apply IH; [|lia].
    apply cooling_step; [exact Hcool|lia].
Qed.

(** C8. After an accepted F9 press in a reachable page, whether the toggle
    call succeeded or failed: the handler waits for the call with
    [isProcessingF9] already set; over any events that follow within less
    than 1000 ms of the call's completion, F9 presses included, the number of
    toggle calls stays at one more than before and [isProcessingF9] stays
    true; and [isProcessingF9] is false as soon as 1000 ms have passed. *)
Theorem toggle_debounce_and_cooldown
    (w : World) (net : list Response) (es : list Event) (dt : nat) :
  reachable w ->
  isProcessingF9 (state w) = false ->
  isProcessingVideo (state w) = false ->
  (elapsed es < 1000)%nat ->
  let w1 := step w (KeyDown "F9" net) in
  let w2 := steps w1 es in
  isProcessingF9 (fst (suspended (handleKeyDown (state w) "F9") (state w))) = true /\
  timers w1 = [((clock w + 1000)%nat, setIsProcessingF9 false)] /\
  countIn isToggleCall (log w2) = S (countIn isToggleCall (log w)) /\
  isProcessingF9 (state w2) = true /\
  ((1000 <= elapsed es + dt)%nat ->
   isProcessingF9 (state (step w2 (Elapse dt))) = false).
Proof.
  intros Hreach HF9 Hp Hlt w1 w2.
  pose proof (reachable_timersOk w Hreach) as Hok.
  destruct Hok as [[_ Hnil]|[Htrue _]]; [|congruence].
  destruct (accepted_keydown_pending w net HF9 Hp) as (HF9' & _ & _ & Ht & Hc & Hn).
  fold w1 in HF9', Ht, Hc, Hn. rewrite Hnil in Ht. cbn in Ht.
  assert (Hcool : cooling (clock w) (S (countIn isToggleCall (log w))) 0 w1).
  { unfold cooling. rewrite Nat.add_0_r. tauto. }
  pose proof (cooling_steps _ _ es 0 w1 Hcool Hlt) as (HF9'' & Ht'' & Hc'' & Hn'').
  fold w2 in HF9'', Ht'', Hc'', Hn''. cbn in Hc''.
  split; [|split; [exact Ht|split; [exact Hn''|split; [exact HF9''|]]]].
  - unfold handleKeyDown. cbn. rewrite HF9, Hp. cbn.
    destruct (is_recording (status (state w))); reflexivity.
  - intro Hge. cbn [step].
    destruct (elapse_past_due dt (clock w + 1000) _ w2 Ht'') as [Hs _]; [lia|].
    rewrite Hs. reflexivity.
Qed.

Lemma toggle_debounce_and_cooldown_witness :
  let es := [KeyDown "F9" [RToggle "Recording stopped"]; Elapse 400;
             KeyDown "F9" [RToggle "Recording stopped"]; Elapse 599;
             KeyDown "F9" [RToggle "Recording stopped"]] in
  let w2 := steps (step initialWorld (KeyDown "F9" [RFail])) es in
  countIn isToggleCall (log w2) = 1 /\
  isProcessingF9 (state (step w2 (Elapse 1))) = false.
Proof.
  cbv zeta.
  destruct (toggle_debounce_and_cooldown
              initialWorld [RFail]
              [KeyDown "F9" [RToggle "Recording stopped"]; Elapse 400;
               KeyDown "F9" [RToggle "Recording stopped"]; Elapse 599;
               KeyDown "F9" [RToggle "Recording stopped"]]
              1)
    as (_ & _ & Hn & _ & Hclear).
  - exists []. reflexivity.
  - reflexivity.
  - reflexivity.
  - cbn. lia.
  - split; [exact Hn|]. apply Hclear. cbn. lia.
Defined.

(** ** The processing window *)

Lemma elapse_state (dt : nat) (w : World) :
  timersOk w ->
  state (elapse dt w) = state w \/
  state (elapse dt w) = setIsProcessingF9 false (state w).
Proof.
  intros [[_ Hnil]|[_ (due & Ht & _)]].
  - left. apply (elapse_no_timer dt w Hnil).
  - destruct (Nat.leb_spec due (clock w + dt)) as [Hle|Hgt].
    + right. apply (elapse_past_due dt due _ w Ht Hle).
    + left. apply (elapse_before_due dt due _ w Ht Hgt).
Qed.

(** While processing, every event on which the completion edge does not
    fire keeps [isProcessingVideo] and the stored count. *)
Lemma processing_step (w : World) (e : Event) :
  timersOk w ->
  isProcessingVideo (state w) = true ->
  ~ completes w e ->
  isProcessingVideo (state (step w e)) = true /\
  processed_video_count (status (state (step w e))) =
    processed_video_count (status (state w)).
Proof.
  intros Hok Hp Hnc. destruct e as [net|net|key net|query net|dt].
  - destruct (step_Initialize_untouched w net) as (Hp' & Hs' & _).
    rewrite Hp', Hs'. split; [exact Hp|reflexivity].
  - destruct net as [|r rest].
    { rewrite poll_status_failed by discriminate. split; [exact Hp|reflexivity]. }
    destruct r as [sd|cd|message|response|];
      try (rewrite poll_status_failed by discriminate;
           split; [exact Hp|reflexivity]).
    tick. rewrite Hp.
    destruct (is_recording (status (state w))),
             (is_recording sd) eqn:Hs,
             (processed_video_count (status (state w)) <? processed_video_count sd)%nat
               eqn:Hlt;
      cbn; rewrite ?Hp; try (split; reflexivity);
      exfalso; apply Hnc; exists sd, rest; apply Nat.ltb_lt in Hlt;
      repeat split; assumption.
  - destruct (keydown_cases w key net) as [->|(_ & _ & Hfalse)];
      [split; [exact Hp|reflexivity]|congruence].
  - destruct (step_AgentQuery_untouched w query net) as (Hp' & Hs' & _).
    rewrite Hp', Hs'. split; [exact Hp|reflexivity].
  - cbn [step]. destruct (elapse_state dt w Hok) as [->| ->];
      (split; [exact Hp|reflexivity]).
Qed.

Lemma quiet_not_completes (w : World) (e : Event) :
  reportsAbove (processed_video_count (status (state w))) e = false ->
  ~ completes w e.
Proof.
  intros Hq (sd & rest & -> & _ & Hlt). cbn in Hq.
  apply Nat.ltb_ge in Hq. lia.
Qed.

Lemma processing_steps (N : nat) (es : list Event) (w : World) :
  timersOk w ->
  isProcessingVideo (state w) = true ->
  processed_video_count (status (state w)) = N ->
  quiet N es ->
  isProcessingVideo (state (steps w es)) = true /\
  processed_video_count (status (state (steps w es))) = N.
Proof.
  revert w. induction es as [|e es IH]; intros w Hok Hp HN Hq.
  - split; assumption.
  - rewrite steps_cons. inversion Hq as [|e' es' He Hes]; subst e' es'.
    destruct (processing_step w e Hok Hp) as [Hp' HN'].
    { apply quiet_not_completes. rewrite HN. exact He. }
    apply IH; try assumption.
    + apply timersOk_step. exact Hok.
    + rewrite HN'. exact HN.
Qed.

(** C10. In a reachable page with [isProcessingVideo] true, an event after
    which it is false is a poll tick on which the completion edge fires
    (fetched [is_recording] false, fetched count above the stored one).
    Key presses, agent queries, the initializer, the passing of time and
    poll ticks whose status fetch fails leave it true; so it is still true,
    and the stored count still the baseline, after any sequence of events in
    which no tick reports a count above the baseline. *)
Theorem processing_ends_only_at_completion_edge (w : World) :
  reachable w ->
  isProcessingVideo (state w) = true ->
  (forall e, isProcessingVideo (state (step w e)) = false -> completes w e) /\
  (forall key net, isProcessingVideo (state (step w (KeyDown key net))) = true) /\
  (forall query net, isProcessingVideo (state (step w (AgentQuery query net))) = true) /\
  (forall net, isProcessingVideo (state (step w (Initialize net))) = true) /\
  (forall dt, isProcessingVideo (state (step w (Elapse dt))) = true) /\
  (forall net,
      (forall sd rest, net <> RStatus sd :: rest) ->
      isProcessingVideo (state (step w (Poll net))) = true) /\
  (forall es,
      quiet (processed_video_count (status (state w))) es ->
      isProcessingVideo (state (steps w es)) = true /\
      processed_video_count (status (state (steps w es))) =
        processed_video_count (status (state w))).
Proof.
  intros Hreach Hp.
  pose proof (reachable_timersOk w Hreach) as Hok.
  assert (Hkeep : forall e, ~ completes w e ->
                            isProcessingVideo (state (step w e)) = true).
  { intros e Hnc. apply (processing_step w e Hok Hp Hnc). }
  split; [|split; [|split; [|split; [|split; [|split]]]]].
  - intros e Hfalse.
    destruct e as [net|net|key net|query net|dt];
      try (rewrite Hkeep in Hfalse; [discriminate|];
           intros (sd & rest & Heq & _); discriminate Heq).
    destruct net as [|r rest];
      [rewrite poll_status_failed in Hfalse by discriminate; cbn in Hfalse;
       congruence|].
    destruct r as [sd|cd|message|response|];
      try (rewrite poll_status_failed in Hfalse by discriminate; cbn in Hfalse;
           congruence).
    destruct (is_recording sd) eqn:Hs.
    + rewrite Hkeep in Hfalse; [discriminate|].
      intros (sd' & rest' & Heq & Hs' & _). injection Heq as <- _. congruence.
    + destruct (Nat.ltb_spec (processed_video_count (status (state w)))
                             (processed_video_count sd)) as [Hlt|Hge].
      * exists sd, rest. repeat split; assumption.
      * rewrite Hkeep in Hfalse; [discriminate|].
        intros (sd' & rest' & Heq & _ & Hlt). injection Heq as <- _. lia.
  - intros key net. apply Hkeep. intros (sd & rest & Heq & _). discriminate Heq.
  - intros query net. apply Hkeep. intros (sd & rest & Heq & _). discriminate Heq.
  - intros net. apply Hkeep. intros (sd & rest & Heq & _). discriminate Heq.
  - intros dt. apply Hkeep. intros (sd & rest & Heq & _). discriminate Heq.
  - intros net Hfail. rewrite poll_status_failed by exact Hfail. exact Hp.
  - intros es Hq. apply processing_steps; try assumption. reflexivity.
Qed.

Lemma processing_ends_only_at_completion_edge_witness :
  let w := steps initialWorld
             [KeyDown "F9" [RToggle "Recording started"];
              Poll [RStatus {| is_recording := false; processed_video_count := 0 |}]] in
  isProcessingVideo
    (state (steps w [Elapse 5000; KeyDown "F9" [RToggle "Recording started"];
                     Poll [RFail];
                     AgentQuery "Tell me about video 0" [RAgent "Nothing yet."];
                     Poll [RStatus {| is_recording := true;
                                      processed_video_count := 0 |}]])) = true.
Proof.
  cbv zeta.
  destruct (processing_ends_only_at_completion_edge
              (steps initialWorld
                 [KeyDown "F9" [RToggle "Recording started"];
                  Poll [RStatus {| is_recording := false;
                                   processed_video_count := 0 |}]]))
    as (_ & _ & _ & _ & _ & _ & Hquiet).
  - eexists. reflexivity.
  - reflexivity.
  - apply Hquiet. repeat constructor.
Defined.

(** A window in which both edges fire on one tick.  Recording is started
    here and stopped elsewhere (stop edge, processing begins with the count
    at 0); a tick then reports a recording again; the next tick reports no
    recording and a count of 1.  That tick meets the stop-edge condition, yet
    it leaves [isProcessingVideo] false and advances the stored count. *)
Lemma stop_edge_tick_can_complete :
  let w := steps initialWorld
             [KeyDown "F9" [RToggle "Recording started"];
              Poll [RStatus {| is_recording := false; processed_video_count := 0 |}];
              Poll [RStatus {| is_recording := true; processed_video_count := 0 |}]] in
  let w' := step w (Poll [RStatus {| is_recording := false;
                                     processed_video_count := 1 |}]) in
  is_recording (status (state w)) = true /\
  processed_video_count (status (state w)) = 0 /\
  isProcessingVideo (state w') = false /\
  processed_video_count (status (state w')) = 1.
Proof. cbv zeta. repeat split; reflexivity. Qed.

(** C2, as the code has it.  In a reachable page whose stored status is
    recording, a poll tick that fetches a status that is not recording, and
    on which the completion edge does not fire as well (processing was not
    already on, or the fetched count is not above the stored count [N]),
    makes only the status call, sets [isProcessingVideo], publishes the
    recording-stopped message and keeps the stored count at [N]; the count
    stays [N] and [isProcessingVideo] stays true over every sequence of later
    events in which no tick reports a count above [N]. *)
Theorem stop_edge_freezes_count
    (w : World) (sd : Status) (net : list Response) (es : list Event) :
  reachable w ->
  is_recording (status (state w)) = true ->
  is_recording sd = false ->
  isProcessingVideo (state w) = false \/
  (processed_video_count sd <= processed_video_count (status (state w)))%nat ->
  quiet (processed_video_count (status (state w))) es ->
  let w1 := step w (Poll (RStatus sd :: net)) in
  let w2 := steps w1 es in
  isProcessingVideo (state w1) = true /\
  lastAgentResponse (state w1) = msgRecordingStopped /\
  processed_video_count (status (state w1)) =
    processed_video_count (status (state w)) /\
  log w1 = log w ++ [Sent GetStatus] /\
  isProcessingVideo (state w2) = true /\
  processed_video_count (status (state w2)) =
    processed_video_count (status (state w)).
Proof.
  intros Hreach Hrec Hsd Hnc Hq w1 w2.
  assert (H1 : isProcessingVideo (state w1) = true /\
               lastAgentResponse (state w1) = msgRecordingStopped /\
               processed_video_count (status (state w1)) =
                 processed_video_count (status (state w)) /\
               log w1 = log w ++ [Sent GetStatus]).
  { subst w1. tick. rewrite Hrec, Hsd.
    destruct (isProcessingVideo (state w)) eqn:Hp,
             (processed_video_count (status (state w)) <? processed_video_count sd)%nat
               eqn:Hlt;
      cbn; try (repeat split; reflexivity).
    exfalso. apply Nat.ltb_lt in Hlt. destruct Hnc as [Hf|Hle]; [discriminate|lia]. }
  destruct H1 as (Hp1 & Hl1 & Hc1 & Hlog1).
  repeat split; try assumption.
  - apply (processing_steps (processed_video_count (status (state w))) es w1);
      try assumption.
    apply timersOk_step. apply reachable_timersOk. exact Hreach.
  - apply (processing_steps (processed_video_count (status (state w))) es w1);
      try assumption.
    apply timersOk_step. apply reachable_timersOk. exact Hreach.
Qed.

Lemma stop_edge_freezes_count_witness :
  let w := step initialWorld (KeyDown "F9" [RToggle "Recording started"]) in
  let w1 := step w (Poll [RStatus {| is_recording := false;
                                     processed_video_count := 1 |}]) in
  let w2 := steps w1
              [Poll [RStatus {| is_recording := false; processed_video_count := 0 |}];
               KeyDown "F9" [RToggle "Recording started"];
               Elapse 5000;
               Poll [RFail]] in
  isProcessingVideo (state w1) = true /\
  processed_video_count (status (state w1)) = 0 /\
  isProcessingVideo (state w2) = true /\
  processed_video_count (status (state w2)) = 0.
Proof.
  cbv zeta.
  destruct (stop_edge_freezes_count
              (step initialWorld (KeyDown "F9" [RToggle "Recording started"]))
              {| is_recording := false; processed_video_count := 1 |}
              []
              [Poll [RStatus {| is_recording := false; processed_video_count := 0 |}];
               KeyDown "F9" [RToggle "Recording started"];
               Elapse 5000;
               Poll [RFail]])
    as (Hp1 & _ & Hc1 & _ & Hp2 & Hc2).
  - exists [KeyDown "F9" [RToggle "Recording started"]]. reflexivity.
  - reflexivity.
  - reflexivity.
  - left. reflexivity.
  - repeat constructor.
  - repeat split; assumption.
Defined.

(** ** How the variant of [App.jsx] differs *)

(** In this variant every tick is a full adopt, whatever the state. *)
Lemma AppJsx_poll_adopts (w : World) (sd : Status) (cd : ConversationSnapshot)
      (rest : list Response) :
  snd (run AppJsx.fetchData (RStatus sd :: RConversation cd :: rest) w) =
  {| state := publishFrom cd (setConversationState cd (setStatus sd (state w)));
     clock := clock w;
     timers := timers w;
     log := log w ++ [Sent GetStatus; Sent GetConversation] |}.
Proof.
  unfold AppJsx.fetchData. cbn. publish; reflexivity.
Qed.

(** Its guard is [isProcessingF9] alone. *)
Lemma AppJsx_blocked_keydown (w : World) (net : list Response) :
  isProcessingF9 (state w) = true ->
  snd (run (AppJsx.handleKeyDown (state w) "F9") net w) = w.
Proof.
  intro HF9. unfold AppJsx.handleKeyDown. cbn. rewrite HF9. reflexivity.
Qed.

(** It publishes nothing before the toggle call returns, and never writes
    the stored status: the message shown follows the reply. *)
Lemma AppJsx_keydown_waits_for_reply (w : World) (net : list Response) :
  isProcessingF9 (state w) = false ->
  suspended (AppJsx.handleKeyDown (state w) "F9") (state w) =
    (setLoading true (setIsProcessingF9 true (state w)), Some PostToggleRecording) /\
  status (state (snd (run (AppJsx.handleKeyDown (state w) "F9") net w))) =
    status (state w).
Proof.
  intro HF9. unfold AppJsx.handleKeyDown. cbn. rewrite HF9. cbn.
  split; [reflexivity|].
  destruct net as [|r rest]; try destruct r; cbn; try reflexivity.
  destruct message as [|a message']; cbn; [reflexivity|].
  repeat match goal with
         | |- context [if ?b then _ else _] => destruct b
         end; reflexivity.
Qed.

(** ** Agent queries *)

Lemma queryAgent_calls_once (query : string) (net : list Response) (w : World) :
  log (snd (run (queryAgent query) net w)) = log w ++ [Sent (PostAgentQuery query)].
Proof.
  unfold queryAgent. destruct net as [|r rest]; [|destruct r]; reflexivity.
Qed.

(** X1. [queryAgent] lets no exception escape and makes exactly one call,
    the agent query with the string it was given.  On a reply it publishes
    the response as it is and returns it; on a failure it publishes the
    error message and returns [null].  [loading] is false afterwards in both
    cases. *)
Theorem queryAgent_outcome (query : string) (net : list Response) (w : World) :
  let result := run (queryAgent query) net w in
  log (snd result) = log w ++ [Sent (PostAgentQuery query)] /\
  loading (state (snd result)) = false /\
  (forall response rest,
      net = RAgent response :: rest ->
      fst result = Some (Some response) /\
      lastAgentResponse (state (snd result)) = response) /\
  ((forall response rest, net <> RAgent response :: rest) ->
   fst result = Some None /\
   lastAgentResponse (state (snd result)) = msgAgentError).
Proof.
  cbv zeta. unfold queryAgent.
  destruct net as [|r rest]; [|destruct r]; cbn;
    (split; [reflexivity|]); (split; [reflexivity|]);
    (split; [intros response' rest' Heq; try discriminate Heq
            |intro Hfail; try (split; reflexivity)]).
  - injection Heq as <- _. split; reflexivity.
  - exfalso. eapply Hfail. reflexivity.
Qed.

Lemma queryAgent_handsOff (w0 : World) (query : string) :
  respects (fun w => handsOff w0 w /\ initialized (state w) = initialized (state w0))
           (queryAgent query).
Proof.
  unfold queryAgent. repeat respects_step; unfold handsOff in *; cbn in *; tauto.
Qed.

(** X2. [queryAgent] writes [lastAgentResponse] and [loading] and nothing
    else: the conversation snapshot, the stored status, [initialized], both
    guards, the timers and the clock are as before, whatever the reply. *)
Theorem queryAgent_writes_only_response_and_loading
    (query : string) (net : list Response) (w : World) :
  let w' := step w (AgentQuery query net) in
  handsOff w w' /\ initialized (state w') = initialized (state w).
Proof.
  cbv zeta. unfold step.
  apply (run_respects _ _ (queryAgent_handsOff w query)).
  unfold handsOff. tauto.
Qed.

(** ** The poll tick on failures *)

(** X3. A poll tick whose status fetch fails changes no state cell, sets
    no timer and makes no further call. *)
Theorem poll_status_failure_changes_nothing (w : World) (net : list Response) :
  (forall sd rest, net <> RStatus sd :: rest) ->
  let w' := step w (Poll net) in
  state w' = state w /\
  timers w' = timers w /\
  log w' = log w ++ [Sent GetStatus].
Proof.
  intros Hfail w'. subst w'. rewrite (poll_status_failed w net Hfail).
  repeat split; reflexivity.
Qed.

Lemma poll_status_failure_changes_nothing_witness :
  let w' := step initialWorld (Poll [RFail; RConversation
                                       {| history := [];
                                          videos := [];
                                          memory_context := emptyMemory |}]) in
  state w' = initialState /\ log w' = [Sent GetStatus].
Proof.
  cbv zeta.
  destruct (poll_status_failure_changes_nothing
              initialWorld
              [RFail; RConversation {| history := [];
                                       videos := [];
                                       memory_context := emptyMemory |}])
    as (Hs & _ & Hl).
  - intros sd rest Heq. discriminate Heq.
  - split; [exact Hs|exact Hl].
Defined.

(** X4. On a tick started in the stable state whose status fetch succeeds
    and whose conversation fetch fails, the fetched status is adopted alone:
    the conversation snapshot and [lastAgentResponse] stay as they were, so
    the stored status and the stored snapshot can come from different
    polls. *)
Theorem stable_poll_conversation_failure_adopts_status_alone
    (w : World) (sd : Status) (net : list Response) :
  stable (state w) ->
  (forall cd rest, net <> RConversation cd :: rest) ->
  let w' := step w (Poll (RStatus sd :: net)) in
  state w' = setStatus sd (state w) /\
  conversationState (state w') = conversationState (state w) /\
  lastAgentResponse (state w') = lastAgentResponse (state w) /\
  log w' = log w ++ [Sent GetStatus; Sent GetConversation].
Proof.
  intros Hst Hfail w'. subst w'.
  rewrite (poll_stable_conversation_failed w sd net Hst Hfail).
  repeat split; reflexivity.
Qed.

Lemma stable_poll_conversation_failure_adopts_status_alone_witness :
  let sd := {| is_recording := true; processed_video_count := 7 |} in
  let w' := step initialWorld (Poll [RStatus sd; RFail]) in
  status (state w') = sd /\
  conversationState (state w') = conversationState initialState.
Proof.
  cbv zeta.
  destruct (stable_poll_conversation_failure_adopts_status_alone
              initialWorld
              {| is_recording := true; processed_video_count := 7 |}
              [RFail])
    as (Hs & Hc & _).
  - split; reflexivity.
  - intros cd rest Heq. discriminate Heq.
  - split; [rewrite Hs; reflexivity|exact Hc].
Defined.

(** X5. When the completion edge fires and the conversation fetch of that
    tick fails, the processing window is closed all the same: the fetched
    status is adopted and [isProcessingVideo] cleared, while the snapshot in
    state is the old one.  The state is stable, so the next tick whose two
    fetches succeed brings the snapshot in. *)
Theorem completion_edge_survives_conversation_failure
    (w : World) (sd : Status) (net : list Response) :
  isProcessingVideo (state w) = true ->
  is_recording sd = false ->
  (processed_video_count (status (state w)) < processed_video_count sd)%nat ->
  (forall cd rest, net <> RConversation cd :: rest) ->
  let w' := step w (Poll (RStatus sd :: net)) in
  status (state w') = sd /\
  isProcessingVideo (state w') = false /\
  conversationState (state w') = conversationState (state w) /\
  stable (state w') /\
  (forall sd' cd' rest',
      conversationState
        (state (step w' (Poll (RStatus sd' :: RConversation cd' :: rest')))) = cd').
Proof.
  intros Hproc Hrec Hlt Hfail w'.
  apply Nat.ltb_lt in Hlt.
  assert (H : status (state w') = sd /\
              isProcessingVideo (state w') = false /\
              conversationState (state w') = conversationState (state w)).
  { subst w'. tick. rewrite Hproc, Hrec, Hlt.
    destruct (is_recording (status (state w))); cbn;
      destruct net as [|r rest]; try destruct r; cbn;
      try (repeat split; reflexivity);
      exfalso; eapply Hfail; reflexivity. }
  destruct H as (Hs & Hp & Hc).
  assert (Hst : stable (state w')).
  { split; [rewrite Hs; exact Hrec|exact Hp]. }
  repeat split; try assumption.
  - rewrite Hs. exact Hrec.
  - intros sd' cd' rest'. rewrite (poll_stable w' sd' cd' rest' Hst). cbn.
    unfold publishFrom. destruct (lastAssistant (history cd')); reflexivity.
Qed.

Lemma completion_edge_survives_conversation_failure_witness :
  let w := withState (setIsProcessingVideo true) initialWorld in
  let sd := {| is_recording := false; processed_video_count := 1 |} in
  let w' := step w (Poll [RStatus sd; RFail]) in
  status (state w') = sd /\ isProcessingVideo (state w') = false.
Proof.
  cbv zeta.
  destruct (completion_edge_survives_conversation_failure
              (withState (setIsProcessingVideo true) initialWorld)
              {| is_recording := false; processed_video_count := 1 |}
              [RFail])
    as (Hs & Hp & _).
  - reflexivity.
  - reflexivity.
  - cbn. lia.
  - intros cd rest Heq. discriminate Heq.
  - split; [exact Hs|exact Hp].
Defined.

(** ** What a poll tick calls and writes *)

(** X6. Every poll tick makes the status call first and then at most one
    conversation call, and no other call: the conversation is fetched
    exactly when the status fetch succeeded and either the tick started in
    the stable state or the completion edge fired.  The two fetch sites of
    [fetchData] are never both reached. *)
Theorem poll_calls_status_then_at_most_one_conversation
    (w : World) (net : list Response) :
  log (step w (Poll net)) =
  log w ++ Sent GetStatus ::
        (if fetchesConversation (state w) net then [Sent GetConversation] else []).
Proof.
  unfold fetchesConversation. tick.
  destruct net as [|r net]; [reflexivity|].
  destruct r as [sd|cd|message|response|]; try reflexivity.
  cbn -[Nat.ltb].
  destruct (is_recording (status (state w))),
           (isProcessingVideo (state w)),
           (is_recording sd),
           (processed_video_count (status (state w)) <? processed_video_count sd)%nat;
    cbn; try reflexivity;
    destruct net as [|r net]; try destruct r; cbn; publish; reflexivity.
Qed.

Lemma fetchData_pollHandsOff (w0 : World) (r : SyncState) :
  respects (pollHandsOff w0) (fetchData r).
Proof.
  unfold fetchData, publishLastAssistant.
  repeat respects_step; unfold pollHandsOff in *; cbn in *; tauto.
Qed.

(** X7. A poll tick never writes [loading], [initialized] or
    [isProcessingF9], sets no timer and leaves the clock alone, whatever the
    state it starts in and whatever the replies. *)
Theorem poll_never_touches_loading_or_guards (w : World) (net : list Response) :
  pollHandsOff w (step w (Poll net)).
Proof.
  unfold step. apply (run_respects _ _ (fetchData_pollHandsOff w (state w))).
  unfold pollHandsOff. tauto.
Qed.

(** ** Entering the processing window *)

Lemma poll_keeps_not_processing (w : World) (sd : Status) (rest : list Response) :
  isProcessingVideo (state w) = false ->
  ~ (is_recording (status (state w)) = true /\ is_recording sd = false) ->
  isProcessingVideo (state (step w (Poll (RStatus sd :: rest)))) = false.
Proof.
  intros Hp Hno. tick. rewrite Hp.
  destruct (is_recording (status (state w))) eqn:Hr,
           (is_recording sd) eqn:Hs;
    cbn; try exact Hp;
    try (exfalso; apply Hno; split; reflexivity);
    destruct rest as [|r rest]; try destruct r; cbn; publish; exact Hp.
Qed.

Lemma stable_poll_not_processing (w : World) (net : list Response) :
  stable (state w) ->
  isProcessingVideo (state (step w (Poll net))) = false.
Proof.
  intros [Hr Hp].
  destruct net as [|r rest];
    [rewrite poll_status_failed by discriminate; exact Hp|].
  destruct r as [sd|cd|message|response|];
    try (rewrite poll_status_failed by discriminate; exact Hp).
  apply poll_keeps_not_processing; [exact Hp|].
  intros [Htrue _]. congruence.
Qed.

(** X8. In a reachable page with [isProcessingVideo] false, an event after
    which it is true is a poll tick started with a stored status that is
    recording and fetching a status that is not: the stop edge is the only
    way into the processing window.  Key presses, agent queries, the
    initializer and timers do not open it. *)
Theorem processing_starts_only_at_stop_edge (w : World) (e : Event) :
  reachable w ->
  isProcessingVideo (state w) = false ->
  isProcessingVideo (state (step w e)) = true ->
  exists sd rest,
    e = Poll (RStatus sd :: rest) /\
    is_recording (status (state w)) = true /\
    is_recording sd = false.
Proof.
  intros Hreach Hp Htrue.
  pose proof (reachable_timersOk w Hreach) as Hok.
  destruct e as [net|net|key net|query net|dt].
  - destruct (step_Initialize_untouched w net) as (Hp' & _). congruence.
  - destruct net as [|r rest];
      [rewrite poll_status_failed in Htrue by discriminate; cbn in Htrue;
       congruence|].
    destruct r as [sd|cd|message|response|];
      try (rewrite poll_status_failed in Htrue by discriminate; cbn in Htrue;
           congruence).
    destruct (is_recording (status (state w))) eqn:Hr.
    + destruct (is_recording sd) eqn:Hs.
      * rewrite poll_keeps_not_processing in Htrue; [discriminate|exact Hp|].
        intros [_ Hfalse]. congruence.
      * exists sd, rest. repeat split; assumption.
    + rewrite poll_keeps_not_processing in Htrue; [discriminate|exact Hp|].
      intros [Hfalse _]. congruence.
  - destruct (keydown_cases w key net) as [Hsame|(-> & HF9 & _)].
    + rewrite Hsame in Htrue. congruence.
    + destruct (accepted_keydown_pending w net HF9 Hp) as (_ & Hp' & _).
      congruence.
  - destruct (step_AgentQuery_untouched w query net) as (Hp' & _). congruence.
  - cbn [step] in Htrue.
    destruct (elapse_state dt w Hok) as [Hs|Hs]; rewrite Hs in Htrue;
      cbn in Htrue; congruence.
Qed.

Lemma processing_starts_only_at_stop_edge_witness :
  let w := step initialWorld (KeyDown "F9" [RToggle "Recording started"]) in
  exists sd rest,
    Poll [RStatus {| is_recording := false; processed_video_count := 0 |}] =
      Poll (RStatus sd :: rest) /\
    is_recording (status (state w)) = true /\
    is_recording sd = false.
Proof.
  cbv zeta.
  apply (processing_starts_only_at_stop_edge
           (step initialWorld (KeyDown "F9" [RToggle "Recording started"]))
           (Poll [RStatus {| is_recording := false; processed_video_count := 0 |}])).
  - exists [KeyDown "F9" [RToggle "Recording started"]]. reflexivity.
  - reflexivity.
  - reflexivity.
Defined.

(** X9. Stopping a recording with F9 on this page does not open the
    processing window.  After an accepted, successful press made while the
    stored status is recording, the state is stable and [lastAgentResponse]
    is what it was; whatever the next tick fetches, [isProcessingVideo] is
    still false after it, and a tick whose two fetches succeed is a full
    adopt. *)
Theorem local_stop_skips_processing
    (w : World) (message : string) (rest net : list Response) :
  isProcessingF9 (state w) = false ->
  isProcessingVideo (state w) = false ->
  is_recording (status (state w)) = true ->
  let w1 := step w (KeyDown "F9" (RToggle message :: rest)) in
  stable (state w1) /\
  lastAgentResponse (state w1) = lastAgentResponse (state w) /\
  isProcessingVideo (state (step w1 (Poll net))) = false /\
  (forall sd cd rest',
      let w2 := step w1 (Poll (RStatus sd :: RConversation cd :: rest')) in
      status (state w2) = sd /\ conversationState (state w2) = cd).
Proof.
  intros HF9 Hp Hr w1.
  assert (Hst : stable (state w1)).
  { subst w1. rewrite (accepted_keydown w _ HF9 Hp). cbn. rewrite Hr.
    unfold stable, flipRecording. cbn. rewrite Hr.
    split; [reflexivity|exact Hp]. }
  split; [exact Hst|]. split; [|split].
  - subst w1. rewrite (accepted_keydown w _ HF9 Hp). cbn. rewrite Hr.
    reflexivity.
  - apply stable_poll_not_processing. exact Hst.
  - intros sd cd rest' w2. subst w2. rewrite (poll_stable w1 sd cd rest' Hst).
    cbn. unfold publishFrom.
    destruct (lastAssistant (history cd)); split; reflexivity.
Qed.

Lemma local_stop_skips_processing_witness :
  let w := elapse 1000 (step initialWorld (KeyDown "F9" [RToggle "Recording started"])) in
  let w1 := step w (KeyDown "F9" [RToggle "Recording stopped"]) in
  stable (state w1) /\
  isProcessingVideo
    (state (step w1 (Poll [RStatus {| is_recording := false;
                                     processed_video_count := 0 |}]))) = false.
Proof.
  cbv zeta.
  destruct (local_stop_skips_processing
              (elapse 1000 (step initialWorld
                                 (KeyDown "F9" [RToggle "Recording started"])))
              "Recording stopped" []
              [RStatus {| is_recording := false; processed_video_count := 0 |}])
    as (Hst & _ & Hp & _).
  - reflexivity.
  - reflexivity.
  - reflexivity.
  - split; [exact Hst|exact Hp].
Defined.

(** ** More on the toggle and its cooldown *)

(** X10. A key press either changes nothing at all, or it is an F9 press
    made with both guards clear, and then [preventDefault] is called once,
    followed by one toggle call.  So every toggle call is preceded by
    [preventDefault], and a blocked F9 press leaves the key's default action
    in place. *)
Theorem keydown_prevents_default_exactly_when_accepted
    (w : World) (key : string) (net : list Response) :
  let w' := step w (KeyDown key net) in
  w' = w \/
  (key = "F9" /\
   isProcessingF9 (state w) = false /\
   isProcessingVideo (state w) = false /\
   log w' = log w ++ [DefaultPrevented; Sent PostToggleRecording]).
Proof.
  cbv zeta.
  destruct (keydown_cases w key net) as [Hsame|(-> & HF9 & Hp)];
    [left; exact Hsame|right].
  repeat split; try assumption.
  rewrite (accepted_keydown w net HF9 Hp). reflexivity.
Qed.

Lemma cooldownOk_step (w : World) (e : Event) : cooldownOk w -> cooldownOk (step w e).
Proof.
  intro Hok. destruct e as [net|net|key net|query net|dt].
  - destruct (step_Initialize_untouched w net) as (_ & _ & HF9 & Ht & Hc & _).
    unfold cooldownOk. rewrite HF9, Ht, Hc. exact Hok.
  - destruct (step_Poll_toggleUntouched w net) as (HF9 & Ht & Hc & _).
    unfold cooldownOk. rewrite HF9, Ht, Hc. exact Hok.
  - destruct (keydown_cases w key net) as [->|(-> & HF9 & Hp)]; [exact Hok|].
    destruct (accepted_keydown_pending w net HF9 Hp) as (HF9' & _ & _ & Ht & Hc & _).
    right. split; [exact HF9'|].
    destruct Hok as [[_ Hnil]|[Htrue _]]; [|congruence].
    exists (clock w + 1000)%nat. rewrite Ht, Hnil, Hc.
    split; [reflexivity|lia].
  - destruct (step_AgentQuery_untouched w query net) as (_ & _ & HF9 & Ht & Hc & _).
    unfold cooldownOk. rewrite HF9, Ht, Hc. exact Hok.
  - cbn [step]. destruct Hok as [[HF9 Hnil]|[HF9 (due & Ht & Hlt & Hle)]].
    + destruct (elapse_no_timer dt w Hnil) as [Hs Ht].
      left. rewrite Hs, Ht. split; [exact HF9|reflexivity].
    + destruct (Nat.leb_spec due (clock w + dt)) as [Hdue|Hgt].
      * destruct (elapse_past_due dt due _ w Ht Hdue) as [Hs Ht'].
        left. rewrite Hs, Ht'. split; reflexivity.
      * destruct (elapse_before_due dt due _ w Ht Hgt) as [Hs Ht'].
        right. rewrite Hs, Ht'. split; [exact HF9|].
        exists due. split; [reflexivity|]. cbn. lia.
Qed.

Lemma reachable_cooldownOk (w : World) : reachable w -> cooldownOk w.
Proof.
  intros [es ->]. induction es as [|e es IH] using rev_ind.
  - left. split; reflexivity.
  - rewrite steps_snoc. apply cooldownOk_step. exact IH.
Qed.





(** X13. Two accepted, successful presses, the second made after the
    cooldown of the first, bring the stored status back to what it was.  If
    the first press started the recording, the recording-started message is
    still in [lastAgentResponse] after the second: the stop publishes
    nothing. *)
Theorem double_toggle_restores_status
    (w : World) (m1 m2 : string) (rest1 rest2 : list Response) (dt : nat) :
  reachable w ->
  isProcessingF9 (state w) = false ->
  isProcessingVideo (state w) = false ->
  (1000 <= dt)%nat ->
  let w' := steps w [KeyDown "F9" (RToggle m1 :: rest1); Elapse dt;
                     KeyDown "F9" (RToggle m2 :: rest2)] in
  status (state w') = status (state w) /\
  countIn isToggleCall (log w') = S (S (countIn isToggleCall (log w))) /\
  (is_recording (status (state w)) = false ->
   lastAgentResponse (state w') = msgRecordingStarted).
Proof.
  intros Hreach HF9 Hp Hdt w'. subst w'.
  pose proof (reachable_cooldownOk w Hreach) as Hok.
  destruct Hok as [[_ Hnil]|[Htrue _]]; [|congruence].
  cbn [steps fold_left].
  remember (step w (KeyDown "F9" (RToggle m1 :: rest1))) as w1 eqn:E1.
  assert (Hw1 : w1 =
                {| state :=
                     flipRecording
                       ((if is_recording (status (state w)) then fun s => s
                         else setLastAgentResponse msgRecordingStarted)
                          (setIsProcessingF9 true (state w)));
                   clock := clock w;
                   timers := [(clock w + 1000, setIsProcessingF9 false)];
                   log := log w ++ [DefaultPrevented; Sent PostToggleRecording] |}).
  { rewrite E1, (accepted_keydown w _ HF9 Hp), Hnil. reflexivity. }
  clear E1.
  remember (step w1 (Elapse dt)) as w2 eqn:E2.
  assert (Hw2 : state w2 = setIsProcessingF9 false (state w1) /\ timers w2 = []).
  { rewrite E2. cbn [step].
    apply (elapse_past_due dt (clock w + 1000) (setIsProcessingF9 false) w1).
    - rewrite Hw1. reflexivity.
    - rewrite Hw1. cbn. lia. }
  destruct Hw2 as [Hs2 Ht2].
  assert (HF2 : isProcessingF9 (state w2) = false) by (rewrite Hs2; reflexivity).
  assert (Hp2 : isProcessingVideo (state w2) = false).
  { rewrite Hs2, Hw1. cbn.
    destruct (is_recording (status (state w))); cbn; exact Hp. }
  assert (Hlog2 : log w2 = log w1) by (rewrite E2; reflexivity).
  clear E2.
  rewrite (accepted_keydown w2 _ HF2 Hp2). cbn. rewrite Hs2, Hlog2, Hw1. cbn.
  split; [|split].
  - destruct (state w) as [cs [rec cnt] lar ld f9 ini pv]. cbn.
    destruct rec; cbn; reflexivity.
  - rewrite <- app_assoc. cbn.
    replace (log w ++ [DefaultPrevented; Sent PostToggleRecording;
                       DefaultPrevented; Sent PostToggleRecording])
      with ((((log w ++ [DefaultPrevented]) ++ [Sent PostToggleRecording])
               ++ [DefaultPrevented]) ++ [Sent PostToggleRecording])
      by (rewrite <- !app_assoc; reflexivity).
    rewrite !countIn_app. cbn. lia.
  - intro Hr. rewrite Hr. cbn. rewrite Hr. reflexivity.
Qed.

Lemma double_toggle_restores_status_witness :
  let w' := steps initialWorld
              [KeyDown "F9" [RToggle "Recording started"]; Elapse 2500;
               KeyDown "F9" [RToggle "Recording stopped"]] in
  status (state w') = status initialState /\
  lastAgentResponse (state w') = msgRecordingStarted.
Proof.
  cbv zeta.
  destruct (double_toggle_restores_status
              initialWorld "Recording started" "Recording stopped" [] [] 2500)
    as (Hs & _ & Hl).
  - exists []. reflexivity.
  - reflexivity.
  - reflexivity.
  - lia.
  - split; [exact Hs|]. apply Hl. reflexivity.
Defined.

(** ** More on the initializer *)

Lemma queryAgent_handsOff_only (w0 : World) (query : string) :
  respects (handsOff w0) (queryAgent query).
Proof.
  unfold queryAgent. repeat respects_step; unfold handsOff in *; cbn in *; tauto.
Qed.

Lemma initializeConversation_handsOff (w0 : World) (r : SyncState) :
  respects (handsOff w0) (initializeConversation r).
Proof.
  unfold initializeConversation.
  repeat first
    [ match goal with
      | |- respects _ (queryAgent _) => apply queryAgent_handsOff_only
      end
    | respects_step ];
    unfold handsOff in *; cbn in *; tauto.
Qed.

(** X14. The initializer stores nothing of what it fetches: after any run,
    whatever the replies, the stored status and the conversation snapshot are
    as before, as are both guards, the timers and the clock.  The status and
    the snapshot it reads only steer the choice of the bootstrap query; the
    page gets them from the poller. *)
Theorem initializer_stores_no_fetched_data (w : World) (net : list Response) :
  handsOff w (step w (Initialize net)).
Proof.
  unfold step. apply (run_respects _ _ (initializeConversation_handsOff w (state w))).
  unfold handsOff. tauto.
Qed.

(** X15. What the initializer publishes from its bootstrap query.  On a
    count of 0, and on a positive count with a history that has no assistant
    message, the reply to the query becomes [lastAgentResponse]; when the
    query fails, the agent error message does.  In both cases the session is
    marked initialized and [loading] is false. *)
Theorem initializer_publishes_bootstrap_reply
    (w : World) (sd : Status) (cd : ConversationSnapshot)
    (reply : Response) (rest : list Response) :
  initialized (state w) = false ->
  let published :=
    match reply with
    | RAgent response => response
    | _ => msgAgentError
    end in
  (processed_video_count sd = 0 ->
   let w' := step w (Initialize (RStatus sd :: reply :: rest)) in
   lastAgentResponse (state w') = published /\
   initialized (state w') = true /\
   loading (state w') = false) /\
  ((0 < processed_video_count sd)%nat ->
   (forall x, In x (history cd) -> role x <> "assistant") ->
   let w' := step w (Initialize (RStatus sd :: RConversation cd :: reply :: rest)) in
   lastAgentResponse (state w') = published /\
   initialized (state w') = true /\
   loading (state w') = false).
Proof.
  intros Hinit published. subst published. split.
  - intros Hzero w'. subst w'.
    unfold step, initializeConversation, queryAgent.
    rewrite Hinit. cbn -[Nat.ltb]. rewrite Hzero. cbn.
    destruct reply; cbn; repeat split; reflexivity.
  - intros Hpos Hno w'. subst w'.
    apply Nat.ltb_lt in Hpos.
    unfold step, initializeConversation, queryAgent.
    rewrite Hinit. cbn -[Nat.ltb]. rewrite Hpos. cbn.
    rewrite (existsb_none _ Hno). cbn.
    destruct reply; cbn; repeat split; reflexivity.
Qed.

Lemma initializer_publishes_bootstrap_reply_witness :
  let w' := step initialWorld
                 (Initialize [RStatus {| is_recording := false;
                                         processed_video_count := 0 |};
                              RAgent "Press F9 to record your first video."]) in
  lastAgentResponse (state w') = "Press F9 to record your first video." /\
  initialized (state w') = true.
Proof.
  cbv zeta.
  destruct (initializer_publishes_bootstrap_reply
              initialWorld
              {| is_recording := false; processed_video_count := 0 |}
              {| history := []; videos := []; memory_context := emptyMemory |}
              (RAgent "Press F9 to record your first video.") []
              eq_refl)
    as [Hzero _].
  destruct (Hzero eq_refl) as (Hl & Hi & _).
  split; [exact Hl|exact Hi].
Defined.

(** ** The rendered page *)

Lemma mapWithIndex_length {A B : Type} (f : A -> nat -> B) (l : list A) (i : nat) :
  List.length (mapWithIndex f i l) = List.length l.
Proof.
  revert i. induction l as [|x l IH]; intro i; cbn; [reflexivity|].
  rewrite IH. reflexivity.
Qed.

Lemma mapWithIndex_nth {A B : Type} (f : A -> nat -> B) (l : list A) (i k : nat) :
  nth_error (mapWithIndex f i l) k =
  option_map (fun x => f x (i + k)) (nth_error l k).
Proof.
  revert i k. induction l as [|x l IH]; intros i k.
  - destruct k; reflexivity.
  - destruct k as [|k]; cbn.
    + rewrite Nat.add_0_r. reflexivity.
    + rewrite IH. replace (S i + k) with (i + S k) by lia. reflexivity.
Qed.

Lemma filter_drops_one {A : Type} (f : A -> bool) (l : list A) :
  (exists u, In u l /\ f u = false) ->
  List.length (filter f l) < List.length l.
Proof.
  induction l as [|x l IH]; intros (u & Hin & Hu); [destruct Hin|].
  cbn. destruct Hin as [->|Hin].
  - rewrite Hu. pose proof (filter_length_le f l). lia.
  - assert (H : List.length (filter f l) < List.length l)
      by (apply IH; exists u; split; assumption).
    destruct (f x); cbn; lia.
Qed.

Lemma filter_all_false {A : Type} (f : A -> bool) (l : list A) :
  (forall x, In x l -> f x = false) -> filter f l = [].
Proof.
  induction l as [|x l IH]; intro Hall; [reflexivity|].
  cbn. rewrite (Hall x (or_introl eq_refl)).
  apply IH. intros y Hy. apply Hall. right. exact Hy.
Qed.

(** X16. There is one card per video that is not skipped, in the order of
    the snapshot.  The card of a displayed video is numbered by its position
    among the displayed videos: its key and the number in its click query are
    the count of displayed videos before it, which is less than its position
    in the snapshot as soon as a skipped video precedes it.  A click on the
    card makes one agent query, with that number. *)
Theorem video_cards_are_numbered_among_displayed
    (toLocaleString : string -> string) (r : SyncState)
    (pre post : list Video) (v : Video) :
  videos (conversationState r) = pre ++ v :: post ->
  isDisplayed v = true ->
  let k := List.length (filter isDisplayed pre) in
  let view := render toLocaleString r in
  List.length (videoCards view) =
    List.length (filter isDisplayed (videos (conversationState r))) /\
  (exists card,
      nth_error (videoCards view) k = Some card /\
      cardKey card = k /\
      cardSummary card = summary v /\
      cardQuery card = ("Tell me about video " ++ numberToString k)%string /\
      forall w net,
        log (step w (click card net)) =
        log w ++ [Sent (PostAgentQuery
                          ("Tell me about video " ++ numberToString k)%string)]) /\
  ((exists u, In u pre /\ isDisplayed u = false) -> k < List.length pre).
Proof.
  intros Hvideos Hshown k view. subst k view. split; [|split].
  - cbn. apply mapWithIndex_length.
  - exists (videoCard toLocaleString v (List.length (filter isDisplayed pre))).
    split; [|repeat split].
    + cbn. rewrite mapWithIndex_nth, Hvideos, filter_app. cbn. rewrite Hshown.
      rewrite nth_error_app2 by lia. rewrite Nat.sub_diag. reflexivity.
    + intros w net. unfold click. cbn [cardQuery videoCard].
      apply (queryAgent_calls_once _ net w).
  - apply filter_drops_one.
Qed.

Lemma video_cards_are_numbered_among_displayed_witness :
  let skipped := {| timestamp := "2025-03-01T10:00:00"; summary := "";
                    video_status := Some "skipped" |} in
  let shown := {| timestamp := "2025-03-01T11:00:00"; summary := "s";
                  video_status := None |} in
  let r := setConversationState
             {| history := []; videos := [skipped; shown];
                memory_context := emptyMemory |} initialState in
  List.length (videoCards (render (fun t => t) r)) = 1 /\
  exists card,
    nth_error (videoCards (render (fun t => t) r)) 0 = Some card /\
    cardQuery card = "Tell me about video 0".
Proof.
  cbv zeta.
  destruct (video_cards_are_numbered_among_displayed
              (fun t => t)
              (setConversationState
                 {| history := [];
                    videos := [ {| timestamp := "2025-03-01T10:00:00"; summary := "";
                                   video_status := Some "skipped" |};
                                {| timestamp := "2025-03-01T11:00:00"; summary := "s";
                                   video_status := None |} ];
                    memory_context := emptyMemory |} initialState)
              [ {| timestamp := "2025-03-01T10:00:00"; summary := "";
                   video_status := Some "skipped" |} ]
              []
              {| timestamp := "2025-03-01T11:00:00"; summary := "s";
                 video_status := None |}
              eq_refl eq_refl)
    as (Hlen & (card & Hnth & _ & _ & Hq & _) & _).
  split; [exact Hlen|].
  exists card. split; [exact Hnth|exact Hq].
Defined.

(** X17. The no-videos notice is tied to the unfiltered list.  When the
    snapshot has videos and all of them are skipped, the page shows neither a
    card nor the notice, while the heading still shows the count of the
    stored status. *)
Theorem all_skipped_videos_show_no_card_and_no_notice
    (toLocaleString : string -> string) (r : SyncState) :
  videos (conversationState r) <> [] ->
  (forall v, In v (videos (conversationState r)) -> video_status v = Some "skipped") ->
  let view := render toLocaleString r in
  videoCards view = [] /\
  noVideosNotice view = false /\
  videosHeading view =
    ("Videos (" ++ numberToString (processed_video_count (status r)) ++ ")")%string.
Proof.
  intros Hne Hall view. subst view. cbn.
  rewrite (filter_all_false isDisplayed).
  - destruct (videos (conversationState r)); [contradiction|].
    repeat split; reflexivity.
  - intros v Hv. unfold isDisplayed. rewrite (Hall v Hv). reflexivity.
Qed.

Lemma all_skipped_videos_show_no_card_and_no_notice_witness :
  let r := setStatus {| is_recording := false; processed_video_count := 2 |}
             (setConversationState
                {| history := [];
                   videos := [ {| timestamp := "t1"; summary := "a";
                                  video_status := Some "skipped" |};
                               {| timestamp := "t2"; summary := "b";
                                  video_status := Some "skipped" |} ];
                   memory_context := emptyMemory |} initialState) in
  videoCards (render (fun t => t) r) = [] /\
  noVideosNotice (render (fun t => t) r) = false /\
  videosHeading (render (fun t => t) r) = "Videos (2)".
Proof.
  cbv zeta.
  apply (all_skipped_videos_show_no_card_and_no_notice
           (fun t => t)
           (setStatus {| is_recording := false; processed_video_count := 2 |}
              (setConversationState
                 {| history := [];
                    videos := [ {| timestamp := "t1"; summary := "a";
                                   video_status := Some "skipped" |};
                                {| timestamp := "t2"; summary := "b";
                                   video_status := Some "skipped" |} ];
                    memory_context := emptyMemory |} initialState))).
  - discriminate.
  - intros v [<-|[<-|[]]]; reflexivity.
Defined.

(** X18. What the response box shows around an agent query.  While the
    query is in flight it shows the processing text.  Once the reply is in,
    a page that is processing a video shows the recording-stopped text, not
    the reply, although the reply is in [lastAgentResponse]; a page that is
    not shows the reply, or the no-response text when the reply is the empty
    string. *)
Theorem response_box_around_agent_query
    (toLocaleString : string -> string) (w : World)
    (query response : string) (rest : list Response) :
  let w' := step w (AgentQuery query (RAgent response :: rest)) in
  responseBox (render toLocaleString (fst (suspended (queryAgent query) (state w)))) =
    "Processing..." /\
  lastAgentResponse (state w') = response /\
  (isProcessingVideo (state w) = true ->
   responseBox (render toLocaleString (state w')) =
     "Recording stopped. Processing your video, please wait...") /\
  (isProcessingVideo (state w) = false ->
   responseBox (render toLocaleString (state w')) =
     orElse response "No response yet. Record a video to start.").
Proof.
  cbv zeta. unfold step, queryAgent. cbn.
  split; [reflexivity|]. split; [reflexivity|].
  split; intro Hp; rewrite Hp; reflexivity.
Qed.


(** ** The handlers of [App.jsx] *)

Lemma prefix_append (needle post : string) :
  String.prefix needle (needle ++ post)%string = true.
Proof.
  induction needle as [|a needle IH]; cbn.
  - destruct post; reflexivity.
  - destruct (Ascii.ascii_dec a a) as [_|Hne]; [exact IH|contradiction].
Qed.

Lemma prefix_split (needle hay : string) :
  String.prefix needle hay = true -> exists post, hay = (needle ++ post)%string.
Proof.
  revert hay. induction needle as [|a needle IH]; intros hay Hpre.
  - exists hay. reflexivity.
  - destruct hay as [|b hay]; cbn in Hpre; [discriminate|].
    destruct (Ascii.ascii_dec a b) as [->|_]; [|discriminate].
    destruct (IH hay Hpre) as [post ->]. exists post. reflexivity.
Qed.

Lemma includes_unfold (needle hay : string) :
  includes needle hay =
  String.prefix needle hay ||
  match hay with
  | EmptyString => false
  | String _ rest => includes needle rest
  end.
Proof. destruct hay; reflexivity. Qed.

(** [includes] tests for a substring. *)
Lemma includes_spec (needle hay : string) :
  includes needle hay = true <->
  exists pre post, hay = (pre ++ needle ++ post)%string.
Proof.
  split.
  - induction hay as [|c hay IH]; rewrite includes_unfold; intro H;
      apply orb_true_iff in H; destruct H as [Hpre|Hrec]; try discriminate.
    + destruct (prefix_split _ _ Hpre) as [post Heq].
      exists EmptyString, post. exact Heq.
    + destruct (prefix_split _ _ Hpre) as [post Heq].
      exists EmptyString, post. exact Heq.
    + destruct (IH Hrec) as (pre & post & ->).
      exists (String c pre), post. reflexivity.
  - intros (pre & post & ->). induction pre as [|c pre IH].
    + rewrite includes_unfold. cbn [String.append].
      rewrite prefix_append. reflexivity.
    + rewrite includes_unfold. cbn [String.append]. rewrite IH.
      apply orb_true_r.
Qed.

Lemma includes_none (needle hay : string) :
  (forall pre post, hay <> (pre ++ needle ++ post)%string) ->
  includes needle hay = false.
Proof.
  intro Hno. destruct (includes needle hay) eqn:E; [|reflexivity].
  apply includes_spec in E. destruct E as (pre & post & Heq).
  exfalso. exact (Hno pre post Heq).
Qed.

Lemma includes_spec_neg (needle hay : string) :
  includes needle hay = false ->
  forall pre post, hay <> (pre ++ needle ++ post)%string.
Proof.
  intros Hfalse pre post Heq.
  assert (Htrue : includes needle hay = true)
    by (apply includes_spec; exists pre, post; exact Heq).
  congruence.
Qed.

(** An accepted F9 press under [App.jsx], in full. *)
Lemma AppJsx_accepted_keydown (w : World) (net : list Response) :
  isProcessingF9 (state w) = false ->
  AppJsx.step w (KeyDown "F9" net) =
  {| state :=
       setLoading false
         ((match net with
           | RToggle message :: _ =>
               if includes "Recording started" message then
                 setLastAgentResponse msgRecordingStarted
               else if includes "Recording stopped" message then
                 setLastAgentResponse msgRecordingStopped
               else fun s => s
           | _ => setLastAgentResponse msgToggleError
           end)
            (setLoading true (setIsProcessingF9 true (state w))));
     clock := clock w;
     timers := timers w ++ [(clock w + 1000, setIsProcessingF9 false)];
     log := log w ++ [DefaultPrevented; Sent PostToggleRecording] |}.
Proof.
  intro HF9. unfold AppJsx.step, AppJsx.handleKeyDown. cbn. rewrite HF9. cbn.
  destruct net as [|r rest]; [page; reflexivity|].
  destruct r as [sd|cd|message|response|]; try (page; reflexivity).
  destruct message as [|a message]; [page; reflexivity|].
  cbn -[includes].
  destruct (includes "Recording started" (String a message));
    [page; reflexivity|].
  destruct (includes "Recording stopped" (String a message)); page; reflexivity.
Qed.

(** X20. Under [App.jsx] an F9 press made with [isProcessingF9] clear is
    accepted whatever else the state holds.  [loading] is true while the
    toggle call is awaited and false afterwards; the stored status is never
    written; the cooldown timer is set.  The message published follows the
    reply: the recording-started message when the reply's message contains
    "Recording started", else the recording-stopped message when it contains
    "Recording stopped", else nothing; the error message when the call
    fails. *)
Theorem AppJsx_keydown_follows_reply_message (w : World) (net : list Response) :
  isProcessingF9 (state w) = false ->
  let w' := AppJsx.step w (KeyDown "F9" net) in
  loading (fst (suspended (AppJsx.handleKeyDown (state w) "F9") (state w))) = true /\
  loading (state w') = false /\
  status (state w') = status (state w) /\
  isProcessingF9 (state w') = true /\
  timers w' = timers w ++ [(clock w + 1000, setIsProcessingF9 false)] /\
  log w' = log w ++ [DefaultPrevented; Sent PostToggleRecording] /\
  (forall message rest,
      net = RToggle message :: rest ->
      ((exists pre post, message = (pre ++ "Recording started" ++ post)%string) ->
       lastAgentResponse (state w') = msgRecordingStarted) /\
      ((forall pre post, message <> (pre ++ "Recording started" ++ post)%string) ->
       (exists pre post, message = (pre ++ "Recording stopped" ++ post)%string) ->
       lastAgentResponse (state w') = msgRecordingStopped) /\
      ((forall pre post, message <> (pre ++ "Recording started" ++ post)%string) ->
       (forall pre post, message <> (pre ++ "Recording stopped" ++ post)%string) ->
       lastAgentResponse (state w') = lastAgentResponse (state w))) /\
  ((forall message rest, net <> RToggle message :: rest) ->
   lastAgentResponse (state w') = msgToggleError).
Proof.
  intros HF9 w'. subst w'. rewrite (AppJsx_accepted_keydown w net HF9).
  cbn -[includes].
  split; [unfold AppJsx.handleKeyDown; cbn; rewrite HF9; reflexivity|].
  split; [reflexivity|].
  split.
  { destruct net as [|r rest]; [reflexivity|].
    destruct r as [sd|cd|message|response|]; try reflexivity.
    destruct (includes "Recording started" message); [reflexivity|].
    destruct (includes "Recording stopped" message); reflexivity. }
  split.
  { destruct net as [|r rest]; [reflexivity|].
    destruct r as [sd|cd|message|response|]; try reflexivity.
    destruct (includes "Recording started" message); [reflexivity|].
    destruct (includes "Recording stopped" message); reflexivity. }
  split; [reflexivity|]. split; [reflexivity|]. split.
  - intros message rest ->. split; [|split].
    + intro Hstarted.
      rewrite (proj2 (includes_spec "Recording started" message) Hstarted).
      reflexivity.
    + intros Hno Hstopped.
      rewrite (includes_none "Recording started" message Hno).
      rewrite (proj2 (includes_spec "Recording stopped" message) Hstopped).
      reflexivity.
    + intros Hno1 Hno2.
      rewrite (includes_none "Recording started" message Hno1).
      rewrite (includes_none "Recording stopped" message Hno2).
      reflexivity.
  - intro Hfail.
    destruct net as [|r rest]; [reflexivity|].
    destruct r as [sd|cd|message|response|]; try reflexivity.
    exfalso. eapply Hfail. reflexivity.
Qed.

Lemma AppJsx_keydown_follows_reply_message_witness :
  let w' := AppJsx.step initialWorld
              (KeyDown "F9" [RToggle "OK. Recording stopped, analysing."]) in
  lastAgentResponse (state w') = msgRecordingStopped /\
  status (state w') = status initialState.
Proof.
  cbv zeta.
  destruct (AppJsx_keydown_follows_reply_message
              initialWorld [RToggle "OK. Recording stopped, analysing."] eq_refl)
    as (_ & _ & Hs & _ & _ & _ & Hmsg & _).
  split; [|exact Hs].
  destruct (Hmsg _ _ eq_refl) as (_ & Hstopped & _).
  apply Hstopped.
  - apply (includes_spec_neg "Recording started"). reflexivity.
  - exists "OK. ", ", analysing.". reflexivity.
Defined.

(** X21. Under [App.jsx] a poll tick has no suppression window: whatever
    the state, a fetched status replaces the stored one, and a fetched
    snapshot replaces the stored one with its last assistant message
    published.  The status is adopted even when the conversation fetch then
    fails, and nothing changes when the status fetch fails. *)
Theorem AppJsx_poll_overwrites_in_every_state (w : World) (net : list Response) :
  let w' := AppJsx.step w (Poll net) in
  (forall sd rest, net = RStatus sd :: rest -> status (state w') = sd) /\
  (forall sd cd rest,
      net = RStatus sd :: RConversation cd :: rest ->
      state w' = publishFrom cd (setConversationState cd (setStatus sd (state w)))) /\
  (forall sd rest,
      net = RStatus sd :: rest ->
      (forall cd rest', rest <> RConversation cd :: rest') ->
      state w' = setStatus sd (state w)) /\
  ((forall sd rest, net <> RStatus sd :: rest) -> state w' = state w).
Proof.
  cbv zeta. unfold AppJsx.step. split; [|split; [|split]].
  - intros sd rest ->. unfold AppJsx.fetchData. cbn.
    destruct rest as [|r rest]; try destruct r; cbn; publish; reflexivity.
  - intros sd cd rest ->. rewrite AppJsx_poll_adopts. reflexivity.
  - intros sd rest -> Hfail. unfold AppJsx.fetchData. cbn.
    destruct rest as [|r rest]; try destruct r; cbn; try reflexivity.
    exfalso. eapply Hfail. reflexivity.
  - intro Hfail. unfold AppJsx.fetchData. cbn.
    destruct net as [|r rest]; try destruct r; cbn; try reflexivity.
    exfalso. eapply Hfail. reflexivity.
Qed.

Lemma AppJsx_poll_overwrites_in_every_state_witness :
  let w := AppJsx.step initialWorld (KeyDown "F9" [RToggle "Recording started"]) in
  let sd := {| is_recording := true; processed_video_count := 4 |} in
  status (state (AppJsx.step w (Poll [RStatus sd]))) = sd.
Proof.
  cbv zeta.
  apply (proj1 (AppJsx_poll_overwrites_in_every_state
                  (AppJsx.step initialWorld
                     (KeyDown "F9" [RToggle "Recording started"]))
                  [RStatus {| is_recording := true; processed_video_count := 4 |}])
               {| is_recording := true; processed_video_count := 4 |} []).
  reflexivity.
Defined.

Lemma AppJsx_fetchData_toggleUntouched (w0 : World) :
  respects (toggleUntouched w0) AppJsx.fetchData.
Proof.
  unfold AppJsx.fetchData, publishLastAssistant.
  repeat respects_step; leaf.
Qed.

Lemma AppJsx_keydown_cases (w : World) (key : string) (net : list Response) :
  AppJsx.step w (KeyDown key net) = w \/
  (key = "F9" /\ isProcessingF9 (state w) = false).
Proof.
  unfold AppJsx.step, AppJsx.handleKeyDown.
  destruct (String.eqb_spec key "F9") as [->|Hne]; [|left; reflexivity].
  destruct (isProcessingF9 (state w)) eqn:HF9; [left; reflexivity|].
  right. split; reflexivity.
Qed.

Lemma AppJsx_accepted_pending (w : World) (net : list Response) :
  isProcessingF9 (state w) = false ->
  let w' := AppJsx.step w (KeyDown "F9" net) in
  isProcessingF9 (state w') = true /\
  timers w' = timers w ++ [(clock w + 1000, setIsProcessingF9 false)] /\
  clock w' = clock w /\
  countIn isToggleCall (log w') = S (countIn isToggleCall (log w)).
Proof.
  intros HF9 w'. subst w'. rewrite (AppJsx_accepted_keydown w net HF9).
  cbn -[includes]. repeat split.
  - destruct net as [|r rest]; [reflexivity|].
    destruct r as [sd|cd|message|response|]; try reflexivity.
    destruct (includes "Recording started" message); [reflexivity|].
    destruct (includes "Recording stopped" message); reflexivity.
  - replace (log w ++ [DefaultPrevented; Sent PostToggleRecording])
      with ((log w ++ [DefaultPrevented]) ++ [Sent PostToggleRecording])
      by (rewrite <- app_assoc; reflexivity).
    rewrite !countIn_app. cbn. lia.
Qed.

(** Under [App.jsx] too, only key presses and the passing of time touch
    the guard, the timers, the clock and the number of toggle calls. *)
Lemma AppJsx_step_toggleUntouched (w : World) (e : Event) :
  (forall key net, e <> KeyDown key net) ->
  (forall dt, e <> Elapse dt) ->
  toggleUntouched w (AppJsx.step w e).
Proof.
  intros Hkey Hdt. destruct e as [net|net|key net|query net|dt].
  - destruct (step_Initialize_untouched w net) as (_ & _ & H).
    exact H.
  - unfold AppJsx.step. apply run_respects.
    + apply AppJsx_fetchData_toggleUntouched.
    + apply toggleUntouched_refl.
  - exfalso. exact (Hkey key net eq_refl).
  - destruct (step_AgentQuery_untouched w query net) as (_ & _ & H).
    exact H.
  - exfalso. exact (Hdt dt eq_refl).
Qed.

Lemma AppJsx_cooldownOk_step (w : World) (e : Event) :
  cooldownOk w -> cooldownOk (AppJsx.step w e).
Proof.
  intro Hok. destruct e as [net|net|key net|query net|dt].
  - destruct (AppJsx_step_toggleUntouched w (Initialize net))
      as (HF9 & Ht & Hc & _); try discriminate.
    unfold cooldownOk. rewrite HF9, Ht, Hc. exact Hok.
  - destruct (AppJsx_step_toggleUntouched w (Poll net))
      as (HF9 & Ht & Hc & _); try discriminate.
    unfold cooldownOk. rewrite HF9, Ht, Hc. exact Hok.
  - destruct (AppJsx_keydown_cases w key net) as [->|(-> & HF9)]; [exact Hok|].
    destruct (AppJsx_accepted_pending w net HF9) as (HF9' & Ht & Hc & _).
    right. split; [exact HF9'|].
    destruct Hok as [[_ Hnil]|[Htrue _]]; [|congruence].
    exists (clock w + 1000)%nat. rewrite Ht, Hnil, Hc.
    split; [reflexivity|lia].
  - destruct (AppJsx_step_toggleUntouched w (AgentQuery query net))
      as (HF9 & Ht & Hc & _); try discriminate.
    unfold cooldownOk. rewrite HF9, Ht, Hc. exact Hok.
  - cbn [AppJsx.step]. destruct Hok as [[HF9 Hnil]|[HF9 (due & Ht & Hlt & Hle)]].
    + destruct (elapse_no_timer dt w Hnil) as [Hs Ht].
      left. rewrite Hs, Ht. split; [exact HF9|reflexivity].
    + destruct (Nat.leb_spec due (clock w + dt)) as [Hdue|Hgt].
      * destruct (elapse_past_due dt due _ w Ht Hdue) as [Hs Ht'].
        left. rewrite Hs, Ht'. split; reflexivity.
      * destruct (elapse_before_due dt due _ w Ht Hgt) as [Hs Ht'].
        right. rewrite Hs, Ht'. split; [exact HF9|].
        exists due. split; [reflexivity|]. cbn. lia.
Qed.

Lemma AppJsx_steps_snoc (w : World) (es : list Event) (e : Event) :
  AppJsx.steps w (es ++ [e]) = AppJsx.step (AppJsx.steps w es) e.
Proof. unfold AppJsx.steps. rewrite fold_left_app. reflexivity. Qed.

Lemma AppJsx_reachable_cooldownOk (w : World) : AppJsx.reachable w -> cooldownOk w.
Proof.
  intros [es ->]. induction es as [|e es IH] using rev_ind.
  - left. split; reflexivity.
  - rewrite AppJsx_steps_snoc. apply AppJsx_cooldownOk_step. exact IH.
Qed.

Lemma AppJsx_cooling_step (t0 n k : nat) (w : World) (e : Event) :
  cooling t0 n k w ->
  (k + elapsedOf e < 1000)%nat ->
  cooling t0 n (k + elapsedOf e) (AppJsx.step w e).
Proof.
  intros (HF9 & Ht & Hc & Hn) Hlt.
  destruct e as [net|net|key net|query net|dt]; cbn [elapsedOf] in *;
    rewrite ?Nat.add_0_r.
  - destruct (AppJsx_step_toggleUntouched w (Initialize net))
      as (HF9' & Ht' & Hc' & Hn'); try discriminate.
    unfold cooling. rewrite HF9', Ht', Hc', Hn'. tauto.
  - destruct (AppJsx_step_toggleUntouched w (Poll net))
      as (HF9' & Ht' & Hc' & Hn'); try discriminate.
    unfold cooling. rewrite HF9', Ht', Hc', Hn'. tauto.
  - destruct (AppJsx_keydown_cases w key net) as [->|(_ & Hfalse)];
      [unfold cooling; tauto|congruence].
  - destruct (AppJsx_step_toggleUntouched w (AgentQuery query net))
      as (HF9' & Ht' & Hc' & Hn'); try discriminate.
    unfold cooling. rewrite HF9', Ht', Hc', Hn'. tauto.
  - cbn [AppJsx.step].
    destruct (elapse_before_due dt (t0 + 1000) _ w Ht) as [Hs Ht']; [lia|].
    unfold cooling. rewrite Hs, Ht'. cbn. repeat split; try assumption. lia.
Qed.

Lemma AppJsx_cooling_steps (t0 n : nat) (es : list Event) (k : nat) (w : World) :
  cooling t0 n k w ->
  (k + elapsed es < 1000)%nat ->
  cooling t0 n (k + elapsed es) (AppJsx.steps w es).
Proof.
  revert k w. induction es as [|e es IH]; intros k w Hcool Hlt.
  - cbn. rewrite Nat.add_0_r. exact Hcool.
  - change (AppJsx.steps w (e :: es)) with (AppJsx.steps (AppJsx.step w e) es).
    rewrite elapsed_cons in *.
    replace (k + (elapsedOf e + elapsed es))%nat
      with ((k + elapsedOf e) + elapsed es)%nat by lia.
    apply IH; [|lia].
    apply AppJsx_cooling_step; [exact Hcool|lia].
Qed.

(** X22. The debounce of [App.jsx].  After an accepted F9 press in a page
    reachable under its handlers, whether the toggle call succeeded or
    failed, no event within less than 1000 ms adds a toggle call, F9 presses
    included, and [isProcessingF9] stays true; once 1000 ms have passed it is
    false.  In every such reachable page at most one timer is pending. *)
Theorem AppJsx_toggle_debounce_and_cooldown
    (w : World) (net : list Response) (es : list Event) (dt : nat) :
  AppJsx.reachable w ->
  isProcessingF9 (state w) = false ->
  (elapsed es < 1000)%nat ->
  let w1 := AppJsx.step w (KeyDown "F9" net) in
  let w2 := AppJsx.steps w1 es in
  cooldownOk w /\
  timers w1 = [((clock w + 1000)%nat, setIsProcessingF9 false)] /\
  countIn isToggleCall (log w2) = S (countIn isToggleCall (log w)) /\
  isProcessingF9 (state w2) = true /\
  ((1000 <= elapsed es + dt)%nat ->
   isProcessingF9 (state (AppJsx.step w2 (Elapse dt))) = false).
Proof.
  intros Hreach HF9 Hlt w1 w2.
  pose proof (AppJsx_reachable_cooldownOk w Hreach) as Hok.
  split; [exact Hok|].
  destruct Hok as [[_ Hnil]|[Htrue _]]; [|congruence].
  destruct (AppJsx_accepted_pending w net HF9) as (HF9' & Ht & Hc & Hn).
  fold w1 in HF9', Ht, Hc, Hn. rewrite Hnil in Ht. cbn in Ht.
  assert (Hcool : cooling (clock w) (S (countIn isToggleCall (log w))) 0 w1).
  { unfold cooling. rewrite Nat.add_0_r. tauto. }
  pose proof (AppJsx_cooling_steps _ _ es 0 w1 Hcool Hlt)
    as (HF9'' & Ht'' & Hc'' & Hn'').
  fold w2 in HF9'', Ht'', Hc'', Hn''. cbn in Hc''.
  split; [exact Ht|]. split; [exact Hn''|]. split; [exact HF9''|].
  intro Hge. cbn [AppJsx.step].
  destruct (elapse_past_due dt (clock w + 1000) _ w2 Ht'') as [Hs _]; [lia|].
  rewrite Hs. reflexivity.
Qed.

Lemma AppJsx_toggle_debounce_and_cooldown_witness :
  let es := [KeyDown "F9" [RToggle "Recording stopped"]; Elapse 500;
             Poll [RFail]; KeyDown "F9" [RToggle "Recording stopped"]] in
  let w2 := AppJsx.steps
              (AppJsx.step initialWorld (KeyDown "F9" [RToggle "Recording started"]))
              es in
  countIn isToggleCall (log w2) = 1 /\
  isProcessingF9 (state (AppJsx.step w2 (Elapse 500))) = false.
Proof.
  cbv zeta.
  destruct (AppJsx_toggle_debounce_and_cooldown
              initialWorld [RToggle "Recording started"]
              [KeyDown "F9" [RToggle "Recording stopped"]; Elapse 500;
               Poll [RFail]; KeyDown "F9" [RToggle "Recording stopped"]]
              500)
    as (_ & _ & Hn & _ & Hclear).
  - exists []. reflexivity.
  - reflexivity.
  - cbn. lia.
  - split; [exact Hn|]. apply Hclear. cbn. lia.
Defined.

(** ** Where the stored data comes from *)

(** X23. A key press never writes the conversation snapshot, the stored
    count, [loading], [initialized] or [isProcessingVideo], whether it is
    accepted or not and whatever the reply to the toggle call. *)
Theorem keydown_writes_only_toggle_cells
    (w : World) (key : string) (net : list Response) :
  let w' := step w (KeyDown key net) in
  conversationState (state w') = conversationState (state w) /\
  processed_video_count (status (state w')) =
    processed_video_count (status (state w)) /\
  loading (state w') = loading (state w) /\
  initialized (state w') = initialized (state w) /\
  isProcessingVideo (state w') = isProcessingVideo (state w).
Proof.
  cbv zeta.
  destruct (keydown_cases w key net) as [->|(-> & HF9 & Hp)];
    [repeat split; reflexivity|].
  rewrite (accepted_keydown w net HF9 Hp). cbn.
  destruct net as [|r rest]; try destruct r;
    destruct (is_recording (status (state w))); cbn; repeat split; reflexivity.
Qed.

Lemma poll_count_kept_or_fetched (w : World) (net : list Response) :
  processed_video_count (status (state (step w (Poll net)))) =
    processed_video_count (status (state w)) \/
  exists sd rest,
    net = RStatus sd :: rest /\
    processed_video_count (status (state (step w (Poll net)))) =
      processed_video_count sd.
Proof.
  destruct net as [|r rest];
    [left; rewrite poll_status_failed by discriminate; reflexivity|].
  destruct r as [sd|cd|message|response|];
    try (left; rewrite poll_status_failed by discriminate; reflexivity).
  tick.
  destruct (is_recording (status (state w))),
           (isProcessingVideo (state w)),
           (is_recording sd),
           (processed_video_count (status (state w)) <? processed_video_count sd)%nat;
    cbn; try (left; reflexivity);
    right; exists sd, rest; (split; [reflexivity|]);
    destruct rest as [|r rest]; try destruct r; cbn; publish; reflexivity.
Qed.

Lemma initializer_handsOff_step (w : World) (net : list Response) :
  handsOff w (step w (Initialize net)).
Proof.
  unfold step. apply (run_respects _ _ (initializeConversation_handsOff w (state w))).
  unfold handsOff. tauto.
Qed.

Lemma queryAgent_handsOff_step (w : World) (query : string) (net : list Response) :
  handsOff w (step w (AgentQuery query net)).
Proof.
  unfold step. apply (run_respects _ _ (queryAgent_handsOff_only w query)).
  unfold handsOff. tauto.
Qed.

(** Events other than ticks keep the snapshot and the stored count. *)
Lemma other_events_keep_fetched_data (w : World) (e : Event) :
  timersOk w ->
  (forall net, e <> Poll net) ->
  conversationState (state (step w e)) = conversationState (state w) /\
  processed_video_count (status (state (step w e))) =
    processed_video_count (status (state w)).
Proof.
  intros Hok Hnp. destruct e as [net|net|key net|query net|dt].
  - destruct (initializer_handsOff_step w net) as (Hc & Hs & _).
    rewrite Hc, Hs. split; reflexivity.
  - exfalso. exact (Hnp net eq_refl).
  - destruct (keydown_cases w key net) as [->|(-> & HF9 & Hp)];
      [split; reflexivity|].
    rewrite (accepted_keydown w net HF9 Hp). cbn.
    destruct net as [|r rest]; try destruct r;
      destruct (is_recording (status (state w))); cbn; split; reflexivity.
  - destruct (queryAgent_handsOff_step w query net) as (Hc & Hs & _).
    rewrite Hc, Hs. split; reflexivity.
  - cbn [step]. destruct (elapse_state dt w Hok) as [->| ->]; split; reflexivity.
Qed.

(** X24. The page stores only what the backend sent.  In every reachable
    page the conversation snapshot is the initial, empty one or a snapshot
    received by one of the poll ticks that led there, and the stored count is
    0 or the count of a status received by one of those ticks. *)
Theorem stored_data_comes_from_polls (es : list Event) :
  let w := steps initialWorld es in
  (conversationState (state w) = conversationState initialState \/
   fetchedSnapshot (conversationState (state w)) es) /\
  (processed_video_count (status (state w)) = 0 \/
   fetchedCount (processed_video_count (status (state w))) es).
Proof.
  cbv zeta. induction es as [|e es IH] using rev_ind.
  - split; left; reflexivity.
  - rewrite steps_snoc. set (w := steps initialWorld es) in *.
    assert (Hok : timersOk w) by (apply reachable_timersOk; exists es; reflexivity).
    destruct IH as [IHc IHn].
    assert (Hmono_c : forall cd, fetchedSnapshot cd es -> fetchedSnapshot cd (es ++ [e])).
    { intros cd (net & Hin & Hcd). exists net. split; [|exact Hcd].
      apply in_or_app. left. exact Hin. }
    assert (Hmono_n : forall n, fetchedCount n es -> fetchedCount n (es ++ [e])).
    { intros n (sd & rest & Hin & Hn). exists sd, rest. split; [|exact Hn].
      apply in_or_app. left. exact Hin. }
    assert (Hother : (forall net, e <> Poll net) ->
                     (conversationState (state (step w e)) =
                        conversationState initialState \/
                      fetchedSnapshot (conversationState (state (step w e)))
                                      (es ++ [e])) /\
                     (processed_video_count (status (state (step w e))) = 0 \/
                      fetchedCount (processed_video_count (status (state (step w e))))
                                   (es ++ [e]))).
    { intro Hnp.
      destruct (other_events_keep_fetched_data w e Hok Hnp) as [Hc Hn].
      rewrite Hc, Hn. split.
      - destruct IHc as [H|H]; [left; exact H|right; apply Hmono_c; exact H].
      - destruct IHn as [H|H]; [left; exact H|right; apply Hmono_n; exact H]. }
    destruct e as [net|net|key net|query net|dt];
      try (apply Hother; discriminate).
    clear Hother. split.
    + destruct (poll_conversation_whole w net) as [Hsame|(cd & Hin & Hcd)].
      * rewrite Hsame.
        destruct IHc as [H|H]; [left; exact H|right; apply Hmono_c; exact H].
      * right. rewrite Hcd. exists net. split; [|exact Hin].
        apply in_or_app. right. left. reflexivity.
    + destruct (poll_count_kept_or_fetched w net) as [Hsame|(sd & rest & -> & Hn)].
      * rewrite Hsame.
        destruct IHn as [H|H]; [left; exact H|right; apply Hmono_n; exact H].
      * right. rewrite Hn. exists sd, rest. split; [|reflexivity].
        apply in_or_app. right. left. reflexivity.
Qed.

Lemma queryAgent_outcome_witness :
  let result := run (queryAgent "Tell me about video 0")
                    [RAgent "It shows a code review."] initialWorld in
  fst result = Some (Some "It shows a code review.") /\
  lastAgentResponse (state (snd result)) = "It shows a code review.".
Proof.
  cbv zeta.
  destruct (queryAgent_outcome "Tell me about video 0"
              [RAgent "It shows a code review."] initialWorld)
    as (_ & _ & Hok & _).
  exact (Hok "It shows a code review." [] eq_refl).
Defined.

Lemma response_box_around_agent_query_witness :
  let w := withState (setIsProcessingVideo true) initialWorld in
  let w' := step w (AgentQuery "Tell me about video 0" [RAgent "An answer."]) in
  lastAgentResponse (state w') = "An answer." /\
  responseBox (render (fun t => t) (state w')) =
    "Recording stopped. Processing your video, please wait...".
Proof.
  cbv zeta.
  destruct (response_box_around_agent_query
              (fun t => t)
              (withState (setIsProcessingVideo true) initialWorld)
              "Tell me about video 0" "An answer." [])
    as (_ & Hl & Hproc & _).
  split; [exact Hl|]. apply Hproc. reflexivity.
Defined.

